(** * Citizen portal (app.py): a shallow embedding and its properties

    The Flask application of [app.py] is embedded as pure functions over an
    explicit server state (session and the three MongoDB collections).
    Python values are an inductive type, Python exceptions an error monad,
    dictionaries that the code only uses as counters keyed by strings are
    [gmap string nat], and stored documents are association lists, since a
    BSON document is ordered.

    Scope of the model.
    - Values are the JSON/BSON values without doubles: [None], booleans,
      integers, strings, datetimes, lists and documents.
    - Strings are sequences of ASCII characters; the Unicode white space and
      Unicode digits that [str.strip] and [int] also accept are not modelled.
    - The [_id] of a stored document is kept next to the document ([oid]),
      not inside it: only [admin_engagements] reads it.
    - The store is the fragment of MongoDB described at [Mongo]; a write
      outside it is answered [Unsupported].
    - [jsonify], [render_template] and [redirect] are constructors of the
      response type, they are not executed; [send_file] is modelled for the
      text stream the export hands to it; the [repr] of a container, the
      order of [sort] and the text of an [ObjectId] are parameters of the
      views that use them.

    The file has three parts: the model, the vocabulary of the statements,
    and the properties. *)

From Stdlib Require Import ZArith String Ascii List Bool Lia DecimalString.
From stdpp Require Import base option list gmap strings fin_maps.

Local Open Scope string_scope.
Local Open Scope list_scope.
Local Open Scope nat_scope.

(* ===================================================================== *)
(** * Python values                                                      *)
(* ===================================================================== *)

Module Py.

(** [datetime.datetime], naive, as [datetime.utcnow()] returns it. *)
Record datetime := {
  year : N; month : N; day : N;
  hour : N; minute : N; second : N; microsecond : N
}.

#[warnings="-register-all"]
Inductive value :=
| VNone
| VBool (b : bool)
| VInt (n : Z)
| VStr (s : string)
| VDate (t : datetime)
| VList (items : list value)
| VDict (fields : list (string * value)).

(** A document: the fields of a Python [dict] or of a BSON document. *)
Abbreviation doc := (list (string * value)).

(** Structural induction through the nested lists. *)
Section value_induction.
Variable P : value → Prop.
Hypothesis HNone : P VNone.
Hypothesis HBool : ∀ b, P (VBool b).
Hypothesis HInt : ∀ n, P (VInt n).
Hypothesis HStr : ∀ s, P (VStr s).
Hypothesis HDate : ∀ t, P (VDate t).
Hypothesis HList : ∀ l, Forall P l → P (VList l).
Hypothesis HDict : ∀ d, Forall (λ kv, P kv.2) d → P (VDict d).

Fixpoint value_ind' (v : value) : P v :=
  match v with
  | VNone => HNone
  | VBool b => HBool b
  | VInt n => HInt n
  | VStr s => HStr s
  | VDate t => HDate t
  | VList l =>
      HList l ((fix go (l : list value) : Forall P l :=
                  match l with
                  | [] => @ListDef.Forall_nil _ P
                  | x :: r => @ListDef.Forall_cons _ P x r (value_ind' x) (go r)
                  end) l)
  | VDict d =>
      HDict d ((fix go (d : doc) : Forall (λ kv, P kv.2) d :=
                  match d with
                  | [] => @ListDef.Forall_nil _ (λ kv, P kv.2)
                  | kv :: r =>
                      @ListDef.Forall_cons _ (λ kv, P kv.2) kv r (value_ind' kv.2) (go r)
                  end) d)
  end.
End value_induction.

(** ** Exceptions *)

Inductive exn := ValueError | TypeError | AttributeError | KeyError | OverflowError.

Inductive outcome (A : Type) :=
| Ok (a : A)
| Raise (e : exn).
Arguments Ok {A} a.
Arguments Raise {A} e.

#[global] Instance outcome_ret : MRet outcome := λ A a, Ok a.
#[global] Instance outcome_bind : MBind outcome := λ A B f m,
  match m with
  | Ok a => f a
  | Raise e => Raise e
  end.

(** ** Truth value testing: [bool(v)], [not v], [a or b] *)

Definition truthy (v : value) : bool :=
  match v with
  | VNone => false
  | VBool b => b
  | VInt n => negb (n =? 0)%Z
  | VStr s => match s with EmptyString => false | String _ _ => true end
  | VDate _ => true
  | VList l => match l with [] => false | _ :: _ => true end
  | VDict d => match d with [] => false | _ :: _ => true end
  end.

(** [a or b] *)
Definition py_or (a b : value) : value := if truthy a then a else b.

(** ** Dictionaries: [d.get(k)] and [d[k]] *)

Fixpoint lookup_field (d : doc) (k : string) : option value :=
  match d with
  | [] => None
  | (k', v) :: r => if String.eqb k' k then Some v else lookup_field r k
  end.

(** [d.get(k)] on a dictionary: [None] when the key is missing. *)
Definition get (d : doc) (k : string) : value :=
  default VNone (lookup_field d k).

(** [x.get(k)] on any value: only a dictionary has the method. *)
Definition py_get (x : value) (k : string) : outcome value :=
  match x with
  | VDict d => Ok (get d k)
  | _ => Raise AttributeError
  end.

(** [x[k]] with a string key. *)
Definition getitem (x : value) (k : string) : outcome value :=
  match x with
  | VDict d => match lookup_field d k with Some v => Ok v | None => Raise KeyError end
  | _ => Raise TypeError
  end.

(** ** [int(v)] *)

(** [Py_ISSPACE]: the white space [int] skips around the digits. *)
Definition is_space_c (c : ascii) : bool :=
  let n := nat_of_ascii c in
  (((9 <=? n) && (n <=? 13)) || (n =? 32))%nat.

(** White space of [str.strip()] on ASCII: [str.isspace]. *)
Definition is_space_u (c : ascii) : bool :=
  let n := nat_of_ascii c in
  (((9 <=? n) && (n <=? 13)) || ((28 <=? n) && (n <=? 32)))%nat.

Definition digit_of (c : ascii) : option Z :=
  let n := nat_of_ascii c in
  if ((48 <=? n) && (n <=? 57))%nat then Some (Z.of_nat (n - 48)) else None.

Definition is_digit (c : ascii) : bool :=
  match digit_of c with Some _ => true | None => false end.

Fixpoint lstrip (sp : ascii → bool) (l : list ascii) : list ascii :=
  match l with
  | [] => []
  | c :: r => if sp c then lstrip sp r else l
  end.

Fixpoint rstrip (sp : ascii → bool) (l : list ascii) : list ascii :=
  match l with
  | [] => []
  | c :: r =>
      match rstrip sp r with
      | [] => if sp c then [] else [c]
      | r' => c :: r'
      end
  end.

Definition strip_chars (sp : ascii → bool) (l : list ascii) : list ascii :=
  rstrip sp (lstrip sp l).

(** [s.strip()] *)
Definition strip (s : string) : string :=
  string_of_list_ascii (strip_chars is_space_u (list_ascii_of_string s)).

(** Decimal digits, single underscores allowed between two digits. *)
Fixpoint digits_value (l : list ascii) (acc : Z) : option Z :=
  match l with
  | [] => Some acc
  | c :: r =>
      if Ascii.eqb c "_"%char then
        match r with
        | c' :: _ => if is_digit c' then digits_value r acc else None
        | [] => None
        end
      else
        match digit_of c with
        | Some d => digits_value r (10 * acc + d)%Z
        | None => None
        end
  end.

(** [int(s)] for a string, base 10. The interpreter's limit on the number of
    digits is not modelled. *)
Definition int_of_str (s : string) : outcome Z :=
  let t := strip_chars is_space_c (list_ascii_of_string s) in
  let '(neg, body) :=
    match t with
    | c :: r =>
        if Ascii.eqb c "-"%char then (true, r)
        else if Ascii.eqb c "+"%char then (false, r)
        else (false, t)
    | [] => (false, t)
    end in
  match body with
  | c :: _ =>
      if is_digit c then
        match digits_value body 0 with
        | Some n => Ok (if neg then - n else n)%Z
        | None => Raise ValueError
        end
      else Raise ValueError
  | [] => Raise ValueError
  end.

(** [int(v)] *)
Definition py_int (v : value) : outcome Z :=
  match v with
  | VInt n => Ok n
  | VBool b => Ok (if b then 1 else 0)%Z
  | VStr s => int_of_str s
  | VNone | VDate _ | VList _ | VDict _ => Raise TypeError
  end.

(** [x.strip()]: only strings have the method. *)
Definition py_strip (x : value) : outcome string :=
  match x with
  | VStr s => Ok (strip s)
  | _ => Raise AttributeError
  end.

End Py.
Export Py.

(* ===================================================================== *)
(** * Equality of values                                                 *)
(* ===================================================================== *)

Definition datetime_eqb (a b : datetime) : bool :=
  ((year a =? year b) && (month a =? month b) && (day a =? day b) &&
   (hour a =? hour b) && (minute a =? minute b) && (second a =? second b) &&
   (microsecond a =? microsecond b))%N.

(** Equality of BSON values. Without doubles in the model, the server's
    comparison of two values (numbers by value, documents field by field in
    order) is structural equality. *)
Fixpoint value_eqb (a b : value) : bool :=
  match a, b with
  | VNone, VNone => true
  | VBool x, VBool y => Bool.eqb x y
  | VInt x, VInt y => (x =? y)%Z
  | VStr x, VStr y => String.eqb x y
  | VDate x, VDate y => datetime_eqb x y
  | VList x, VList y =>
      (fix go (x y : list value) : bool :=
         match x, y with
         | [], [] => true
         | u :: x', v :: y' => value_eqb u v && go x' y'
         | _, _ => false
         end) x y
  | VDict x, VDict y =>
      (fix go (x y : doc) : bool :=
         match x, y with
         | [], [] => true
         | (k, u) :: x', (k', v) :: y' => String.eqb k k' && value_eqb u v && go x' y'
         | _, _ => false
         end) x y
  | _, _ => false
  end.

(** Equality of two documents. *)
Definition doc_eqb (a b : doc) : bool := value_eqb (VDict a) (VDict b).
Arguments doc_eqb : simpl never.

(* ===================================================================== *)
(** * The document store                                                 *)
(* ===================================================================== *)

(** The part of pymongo and MongoDB that [app.py] calls. A collection is the
    list of its documents in insertion order.

    Field names that are empty, start with [$], or contain a dot or a NUL
    character are treated differently by different versions of the driver
    and of the server; so are query operators ([{"$gt": ...}]). A write or a
    query that involves one is answered [Unsupported]: the model says
    nothing about it. *)
Module Mongo.

Record stored := { oid : N; body : doc }.
Abbreviation collection := (list stored).

Inductive answer (A : Type) :=
| Done (a : A)
| Fails (e : exn)
| Unsupported.
Arguments Done {A} a.
Arguments Fails {A} e.
Arguments Unsupported {A}.

Definition plain_char (c : ascii) : bool :=
  negb (Ascii.eqb c "."%char) && negb (Ascii.eqb c "000"%char).

(** A field name every version treats alike: not empty, no leading [$], no
    dot, no NUL. *)
Definition plain_key (k : string) : bool :=
  match k with
  | EmptyString => false
  | String c _ =>
      negb (Ascii.eqb c "$"%char) && forallb plain_char (list_ascii_of_string k)
  end.

(** Every field name inside the value is plain; in particular the value is
    not an operator document. *)
Fixpoint plain (v : value) : bool :=
  match v with
  | VList l => forallb plain l
  | VDict d => forallb (λ kv, plain_key kv.1 && plain kv.2) d
  | _ => true
  end.

(** BSON integers are at most 64 bits wide: the driver raises
    [OverflowError] when it encodes a larger one. *)
Fixpoint encodable (v : value) : bool :=
  match v with
  | VInt n => ((- 2 ^ 63 <=? n) && (n <? 2 ^ 63))%Z
  | VList l => forallb encodable l
  | VDict d => forallb (λ kv, encodable kv.2) d
  | _ => true
  end.

(** A BSON date counts milliseconds. *)
Definition to_millis (t : datetime) : datetime :=
  {| year := year t; month := month t; day := day t;
     hour := hour t; minute := minute t; second := second t;
     microsecond := (microsecond t / 1000) * 1000 |}%N.

(** The value a later [find] returns for a value that was written. *)
Fixpoint decoded (v : value) : value :=
  match v with
  | VDate t => VDate (to_millis t)
  | VList l => VList (map decoded l)
  | VDict d => VDict (map (λ kv, (kv.1, decoded kv.2)) d)
  | _ => v
  end.

Definition decoded_doc (d : doc) : doc := map (λ kv, (kv.1, decoded kv.2)) d.

(** [col.find()]: the documents, without [_id]. *)
Definition find (c : collection) : list doc := map body c.

(** [col.find({}, {k: 1, ...})]: only the listed fields are returned. *)
Definition project (keep : list string) (d : doc) : doc :=
  List.filter (λ kv, existsb (String.eqb kv.1) keep) d.

(** [col.insert_one(d)] *)
Definition insert_one (c : collection) (next : N) (d : doc)
    : answer (collection * N) :=
  if negb (plain (VDict d)) then Unsupported
  else if negb (encodable (VDict d)) then Fails OverflowError
  else Done (c ++ [{| oid := next; body := decoded_doc d |}], N.succ next).

(** The filter [{k: q}] for a value [q] that is not an operator document:
    the field equals [q], or is an array with an element equal to [q];
    [null] also matches a missing field. *)
Definition matches (k : string) (q : value) (d : doc) : bool :=
  match lookup_field d k with
  | None => value_eqb q VNone
  | Some (VList l) => value_eqb q (VList l) || existsb (value_eqb q) l
  | Some v => value_eqb q v
  end.

(** [$set] of one field: in place when the field exists, appended otherwise. *)
Fixpoint set_field (d : doc) (k : string) (v : value) : doc :=
  match d with
  | [] => [(k, v)]
  | (k', v') :: r =>
      if String.eqb k' k then (k', v) :: r else (k', v') :: set_field r k v
  end.

Definition set_fields (d : doc) (upd : doc) : doc :=
  foldl (λ acc kv, set_field acc kv.1 kv.2) d upd.

Fixpoint update_first (p : doc → bool) (f : doc → doc) (c : collection)
    : option collection :=
  match c with
  | [] => None
  | s :: r =>
      if p (body s) then Some ({| oid := oid s; body := f (body s) |} :: r)
      else (cons s) <$> update_first p f r
  end.

(** [col.update_one({k: q}, {"$set": upd}, upsert=True)] *)
Definition update_one_upsert (c : collection) (next : N)
    (k : string) (q : value) (upd : doc) : answer (collection * N) :=
  if negb (plain q && plain (VDict upd) &&
           forallb (λ kv, negb (String.eqb kv.1 "_id")) upd)
  then Unsupported
  else if negb (encodable q && encodable (VDict upd)) then Fails OverflowError
  else
    let upd' := decoded_doc upd in
    match update_first (matches k q) (λ d, set_fields d upd') c with
    | Some c' => Done (c', next)
    | None =>
        Done (c ++ [{| oid := next; body := set_fields [(k, decoded q)] upd' |}],
              N.succ next)
    end.

(** [col.delete_one({k: q})] *)
Fixpoint delete_one (k : string) (q : value) (c : collection) : collection :=
  match c with
  | [] => []
  | s :: r => if matches k q (body s) then r else s :: delete_one k q r
  end.

(** [col.find_one({k: q})] *)
Fixpoint find_one (k : string) (q : value) (c : collection) : option doc :=
  match c with
  | [] => None
  | s :: r => if matches k q (body s) then Some (body s) else find_one k q r
  end.

End Mongo.

(* ===================================================================== *)
(** * More of Python: containers, text                                   *)
(* ===================================================================== *)

(** [d[k] = v] on a dictionary. *)
Definition setitem (d : doc) (k : string) (v : value) : doc := Mongo.set_field d k v.

(** Lists and dictionaries cannot be dictionary keys. *)
Definition hashable (v : value) : bool :=
  match v with
  | VList _ | VDict _ => false
  | _ => true
  end.

(** [a == b] between two hashable values: [True == 1] and [False == 0]. *)
Definition key_eqb (a b : value) : bool :=
  match a, b with
  | VBool x, VInt n | VInt n, VBool x => (n =? (if x then 1 else 0))%Z
  | _, _ => value_eqb a b
  end.

(** A dictionary of counters whose keys are arbitrary hashable values. *)
Abbreviation counter := (list (value * nat)).

Fixpoint bump (k : value) (c : counter) : counter :=
  match c with
  | [] => [(k, 1)]
  | (k', n) :: r => if key_eqb k' k then (k', S n) :: r else (k', n) :: bump k r
  end.

(** [c[k] = c.get(k, 0) + 1] *)
Definition count_key (c : counter) (k : value) : outcome counter :=
  if hashable k then Ok (bump k c) else Raise TypeError.

(** [for x in v]: the items [v] yields. *)
Definition py_iter (v : value) : outcome (list value) :=
  match v with
  | VList l => Ok l
  | VStr s => Ok (map (λ c, VStr (String c EmptyString)) (list_ascii_of_string s))
  | VDict d => Ok (map (λ kv, VStr kv.1) d)
  | VNone | VBool _ | VInt _ | VDate _ => Raise TypeError
  end.

(** Left fold of a step that may raise: a [for] loop over [l]. *)
Fixpoint foldM {A B : Type} (f : B → A → outcome B) (acc : B) (l : list A)
    : outcome B :=
  match l with
  | [] => Ok acc
  | x :: r => acc' ← f acc x; foldM f acc' r
  end.

Fixpoint join_strings (sep : string) (l : list string) : string :=
  match l with
  | [] => EmptyString
  | [x] => x
  | x :: r => x +:+ sep +:+ join_strings sep r
  end.

(** [sep.join(v)]: every item must be a string. *)
Definition py_join (sep : string) (v : value) : outcome string :=
  items ← py_iter v;
  strs ← foldM (λ acc x, match x with
                         | VStr s => Ok (acc ++ [s])
                         | _ => Raise TypeError
                         end) [] items;
  mret (join_strings sep strs).

Definition string_of_N (n : N) : string := NilZero.string_of_uint (N.to_uint n).
Definition string_of_Z (n : Z) : string := NilZero.string_of_int (Z.to_int n).

(** [%0wd] *)
Definition pad (w : nat) (n : N) : string :=
  let s := string_of_N n in
  string_of_list_ascii (repeat "0"%char (w - String.length s)) +:+ s.

(** [t.isoformat(sep)] *)
Definition isoformat_sep (sep : string) (t : datetime) : string :=
  pad 4 (year t) +:+ "-" +:+ pad 2 (month t) +:+ "-" +:+ pad 2 (day t) +:+ sep +:+
  pad 2 (hour t) +:+ ":" +:+ pad 2 (minute t) +:+ ":" +:+ pad 2 (second t) +:+
  (if (microsecond t =? 0)%N then EmptyString else "." +:+ pad 6 (microsecond t)).

Definition isoformat (t : datetime) : string := isoformat_sep "T" t.

(** [x.isoformat()]: only a datetime has the method. *)
Definition py_isoformat (x : value) : outcome string :=
  match x with
  | VDate t => Ok (isoformat t)
  | _ => Raise AttributeError
  end.

(* ===================================================================== *)
(** * The application                                                    *)
(* ===================================================================== *)

(** The session cookie and the three collections [services_col], [eng_col]
    and [admins_col]; [next_oid] is the next [_id] the store hands out. *)
Record state := {
  session : doc;
  services_col : Mongo.collection;
  eng_col : Mongo.collection;
  admins_col : Mongo.collection;
  next_oid : N
}.

Inductive http_method := GET | POST | DELETE.

(** A request: its method, its JSON body ([request.json]), its form fields
    ([request.form]), the variable part of its path, and the clock reading
    [datetime.utcnow()] gives while it is served. *)
Record request := {
  method : http_method;
  json : value;
  form : list (string * string);
  service_id : string;
  utcnow : datetime
}.

(** The dictionary [admin_insights] passes to [jsonify]. *)
Record report := {
  age_groups : gmap string nat;
  jobs : gmap string nat;
  services : counter;
  questions : counter;
  desires : counter;
  premium_suggestions : list value
}.

Inductive response :=
| Json (payload : value) (status : nat)
| JsonReport (r : report)
| Text (content : string) (status : nat)
| Template (name : string)
| Redirect (location : string).

(** What a view function does: it returns a response, raises (Flask then
    answers with status 500), or leaves the modelled part of the store. *)
Inductive result :=
| Resp (r : response)
| Crash (e : exn)
| Unmodelled.

(** A view function, as Flask calls it once a route has matched (the
    matching of paths and methods is Flask's and is not modelled). *)
Definition handler : Type := request → state → state * result.

Definition with_session (st : state) (s : doc) : state :=
  {| session := s; services_col := services_col st; eng_col := eng_col st;
     admins_col := admins_col st; next_oid := next_oid st |}.

Definition with_engagements (st : state) (c : Mongo.collection) (n : N) : state :=
  {| session := session st; services_col := services_col st; eng_col := c;
     admins_col := admins_col st; next_oid := n |}.

Definition with_services (st : state) (c : Mongo.collection) (n : N) : state :=
  {| session := session st; services_col := c; eng_col := eng_col st;
     admins_col := admins_col st; next_oid := n |}.

Definition unauthorized : response := Json (VDict [("error", VStr "unauthorized")]) 401.
Definition id_required : response := Json (VDict [("error", VStr "id required")]) 400.
Definition status (s : string) : response := Json (VDict [("status", VStr s)]) 200.

(** ** [admin_required] *)

Definition admin_required (fn : handler) : handler := λ req st,
  if negb (truthy (get (session st) "admin_logged_in")) then (st, Resp unauthorized)
  else fn req st.

(** ** [log_engagement] *)

(** The dictionary [doc] of [log_engagement], its entries evaluated in the
    order of the source. *)
Definition engagement_doc (payload : value) (now : datetime) : outcome doc :=
  user_id ← py_get payload "user_id";
  age_given ← py_get payload "age";
  age ← (if truthy age_given
         then a ← py_get payload "age"; n ← py_int a; mret (VInt n)
         else mret VNone);
  job ← py_get payload "job";
  ds ← py_get payload "desires";
  question ← py_get payload "question_clicked";
  service ← py_get payload "service";
  mret [("user_id", py_or user_id VNone);
        ("age", age);
        ("job", job);
        ("desires", py_or ds (VList []));
        ("question_clicked", question);
        ("service", service);
        ("timestamp", VDate now)].

Definition log_engagement : handler := λ req st,
  let payload := py_or (json req) (VDict []) in
  match engagement_doc payload (utcnow req) with
  | Raise e => (st, Crash e)
  | Ok d =>
      match Mongo.insert_one (eng_col st) (next_oid st) d with
      | Mongo.Done (c, n) => (with_engagements st c n, Resp (status "ok"))
      | Mongo.Fails e => (st, Crash e)
      | Mongo.Unsupported => (st, Unmodelled)
      end
  end.

(** ** [admin_login] *)

(** [request.form.get(k)] *)
Definition form_get (f : list (string * string)) (k : string) : value :=
  match List.find (λ kv, String.eqb kv.1 k) f with
  | Some kv => VStr kv.2
  | None => VNone
  end.

Definition admin_login : handler := λ req st,
  match method req with
  | GET => (st, Resp (Template "admin.html"))
  | _ =>
      let username := form_get (form req) "username" in
      let password := form_get (form req) "password" in
      match Mongo.find_one "username" username (admins_col st) with
      | Some admin =>
          if value_eqb (get admin "password") password then
            (with_session st
               (setitem (setitem (session st) "admin_logged_in" (VBool true))
                        "admin_user" username),
             Resp (Redirect "/admin"))
          else (st, Resp (Text "Login failed" 401))
      | None => (st, Resp (Text "Login failed" 401))
      end
  end.

(** ** [admin_logout] *)

Definition admin_logout : handler :=
  admin_required (λ req st, (with_session st [], Resp (status "logged out"))).

(** ** [admin_insights] *)

Definition age_groups_init : gmap string nat :=
  <["<18" := 0]> (<["18-25" := 0]> (<["26-40" := 0]> (<["41-60" := 0]>
    (<["60+" := 0]> ∅)))).

(** [groups[k] += 1] *)
Definition incr (k : string) (groups : gmap string nat) : gmap string nat :=
  alter S k groups.

(** The body of the first loop; the bare [except] swallows whatever [int]
    raises. *)
Definition age_step (groups : gmap string nat) (e : doc) : gmap string nat :=
  let age := get e "age" in
  if negb (truthy age) then groups
  else
    match py_int age with
    | Ok age =>
        if (age <? 18)%Z then incr "<18" groups
        else if (age <=? 25)%Z then incr "18-25" groups
        else if (age <=? 40)%Z then incr "26-40" groups
        else if (age <=? 60)%Z then incr "41-60" groups
        else incr "60+" groups
    | Raise _ => groups
    end.

Definition age_loop (es : list doc) : gmap string nat :=
  foldl age_step age_groups_init (map (Mongo.project ["age"]) es).

(** The body of the second loop. *)
Definition jobs_step (jobs : gmap string nat) (e : doc) : outcome (gmap string nat) :=
  j ← py_strip (py_or (get e "job") (VStr "Unknown"));
  mret (<[j := default 0 (jobs !! j) + 1]> jobs).

Definition jobs_loop (es : list doc) : outcome (gmap string nat) :=
  foldM jobs_step ∅ (map (Mongo.project ["job"]) es).

(** The body of the third loop, on [(services, questions, desires)]. *)
Definition counts_step (acc : counter * counter * counter) (e : doc)
    : outcome (counter * counter * counter) :=
  let '(services, questions, desires) := acc in
  let s := py_or (get e "service") (VStr "Unknown") in
  let q := py_or (get e "question_clicked") (VStr "Unknown") in
  let ds := py_or (get e "desires") (VList []) in
  services ← count_key services s;
  questions ← count_key questions q;
  items ← py_iter ds;
  desires ← foldM count_key desires items;
  mret (services, questions, desires).

Definition counts_loop (es : list doc) : outcome (counter * counter * counter) :=
  foldM counts_step ([], [], [])
        (map (Mongo.project ["service"; "question_clicked"; "desires"]) es).

(** The [_id] of the [$group] stage,
    [{"user": "$user_id", "question": "$question_clicked"}]: a field the
    document lacks is left out of the key, so that a missing field and a
    [null] one make different groups. *)
Definition group_id (e : doc) : doc :=
  match lookup_field e "user_id" with Some v => [("user", v)] | None => [] end ++
  match lookup_field e "question_clicked" with Some v => [("question", v)] | None => [] end.

Fixpoint group_add (id : doc) (gs : list (doc * nat)) : list (doc * nat) :=
  match gs with
  | [] => [(id, 1)]
  | (i, n) :: r =>
      if doc_eqb i id then (i, S n) :: r else (i, n) :: group_add id r
  end.

(** [$group] with [{"$sum": 1}]. The server does not promise an order of the
    groups; the model lists them by first occurrence. *)
Definition group_stage (es : list doc) : list (doc * nat) :=
  foldl (λ gs e, group_add (group_id e) gs) [] es.

(** [{"$match": {"count": {"$gte": 2}}}] *)
Definition match_stage (gs : list (doc * nat)) : list (doc * nat) :=
  List.filter (λ g, 2 <=? g.2) gs.

(** A document the pipeline returns. *)
Definition group_row (g : doc * nat) : value :=
  VDict [("_id", VDict g.1); ("count", VInt (Z.of_nat g.2))].

(** [eng_col.aggregate(pipeline)] *)
Definition aggregate (es : list doc) : list value :=
  map group_row (match_stage (group_stage es)).

(** The list comprehension over [repeated]: the condition is evaluated
    first, then the three entries of the dictionary. *)
Definition suggestion_step (acc : list value) (r : value) : outcome (list value) :=
  id ← getitem r "_id";
  cond ← getitem id "user";
  if truthy cond then
    id ← getitem r "_id"; user ← getitem id "user";
    id ← getitem r "_id"; question ← getitem id "question";
    count ← getitem r "count";
    mret (acc ++ [VDict [("user", user); ("question", question); ("count", count)]])
  else mret acc.

Definition suggestions (repeated : list value) : outcome (list value) :=
  foldM suggestion_step [] repeated.

Definition compute_insights (es : list doc) : outcome report :=
  let age_groups := age_loop es in
  jobs ← jobs_loop es;
  '(services, questions, desires) ← counts_loop es;
  premium ← suggestions (aggregate es);
  mret {| age_groups := age_groups; jobs := jobs; services := services;
          questions := questions; desires := desires;
          premium_suggestions := premium |}.

Definition admin_insights : handler :=
  admin_required (λ req st,
    match compute_insights (Mongo.find (eng_col st)) with
    | Ok r => (st, Resp (JsonReport r))
    | Raise e => (st, Crash e)
    end).

(** ** [export_csv] *)

Definition quote_char : ascii := "034"%char.
Definition cr_char : ascii := "013"%char.
Definition lf_char : ascii := "010"%char.
Definition quote : string := String quote_char EmptyString.
Definition crlf : string := String cr_char (String lf_char EmptyString).

(** The characters that make [csv.writer] (excel dialect, minimal quoting)
    put a field in quotes. *)
Definition special_char (c : ascii) : bool :=
  Ascii.eqb c ","%char || Ascii.eqb c quote_char ||
  Ascii.eqb c cr_char || Ascii.eqb c lf_char.

Definition needs_quotes (s : string) : bool :=
  existsb special_char (list_ascii_of_string s).

Fixpoint double_quotes (s : string) : string :=
  match s with
  | EmptyString => EmptyString
  | String c r =>
      if Ascii.eqb c quote_char then String c (String c (double_quotes r))
      else String c (double_quotes r)
  end.

Definition csv_field (s : string) : string :=
  if needs_quotes s then quote +:+ double_quotes s +:+ quote else s.

(** [cw.writerow(cells)]: the text appended to the buffer. A row that is one
    empty field is written as a pair of quotes. *)
Definition writerow (cells : list string) : string :=
  match cells with
  | [EmptyString] => quote +:+ quote +:+ crlf
  | _ => join_strings "," (map csv_field cells) +:+ crlf
  end.

(** The file object handed to [send_file]: a text stream or a binary one. *)
Inductive file_object :=
| StringIO (text : string)
| BytesIO (content : string).

(** [send_file(file, mimetype=..., as_attachment=True, download_name=...)]
    on a file object: a text stream is refused with [ValueError] (files must
    be opened in binary mode, or be a [BytesIO]); the delivery of a binary
    stream is not modelled. *)
Definition send_file (file : file_object) (mimetype download_name : string) : result :=
  match file with
  | StringIO _ => Crash ValueError
  | BytesIO _ => Unmodelled
  end.

Section CsvExport.
(** [repr] of a list or of a dictionary, left open. *)
Variable py_repr : value → string.

(** The text [csv.writer] writes for one value: nothing for [None], the
    string itself, [str(v)] otherwise. *)
Definition csv_text (v : value) : string :=
  match v with
  | VNone => EmptyString
  | VStr s => s
  | VInt n => string_of_Z n
  | VBool b => if b then "True" else "False"
  | VDate t => isoformat_sep " " t
  | VList _ | VDict _ => py_repr v
  end.

(** The list passed to [cw.writerow] for one engagement. *)
Definition export_cells (e : doc) : outcome (list string) :=
  desire ← py_join "," (py_or (get e "desires") (VList []));
  timestamp ← (if truthy (get e "timestamp")
               then py_isoformat (get e "timestamp")
               else mret EmptyString);
  mret [csv_text (get e "user_id"); csv_text (get e "age"); csv_text (get e "job");
        desire;
        csv_text (get e "question_clicked"); csv_text (get e "service");
        timestamp].

Definition export_header : list string :=
  ["user_id"; "age"; "job"; "desire"; "question"; "service"; "timestamp"].

(** The body of the loop: one more row in the buffer [si]. *)
Definition export_step (si : string) (e : doc) : outcome string :=
  cells ← export_cells e; mret (si +:+ writerow cells).

(** The content of the buffer [si] after the loop. *)
Definition export_text (es : list doc) : outcome string :=
  foldM export_step (writerow export_header) es.

Definition export_csv : handler :=
  admin_required (λ req st,
    match export_text (Mongo.find (eng_col st)) with
    | Ok text => (st, send_file (StringIO text) "text/csv" "engagements.csv")
    | Raise e => (st, Crash e)
    end).
End CsvExport.

(** ** [admin_engagements] *)

Section Listing.
(** [cursor.sort("timestamp", -1)], left open. *)
Variable sort_desc : string → Mongo.collection → Mongo.collection.
(** [str] of an [ObjectId]. *)
Variable oid_str : N → string.

Definition listing_step (items : list value) (s : Mongo.stored)
    : outcome (list value) :=
  let e := ("_id", VStr (oid_str (Mongo.oid s))) :: Mongo.body s in
  e ← (if truthy (get e "timestamp")
       then iso ← py_isoformat (get e "timestamp");
            mret (setitem e "timestamp" (VStr iso))
       else mret e);
  mret (items ++ [VDict e]).

Definition admin_engagements : handler :=
  admin_required (λ req st,
    match foldM listing_step [] (take 500 (sort_desc "timestamp" (eng_col st))) with
    | Ok items => (st, Resp (Json (VList items) 200))
    | Raise e => (st, Crash e)
    end).
End Listing.

(** ** [admin_services] and [delete_service] *)

Definition admin_services : handler :=
  admin_required (λ req st,
    match method req with
    | GET => (st, Resp (Json (VList (map VDict (Mongo.find (services_col st)))) 200))
    | _ =>
        let payload := json req in
        match py_get payload "id" with
        | Raise e => (st, Crash e)
        | Ok sid =>
            if negb (truthy sid) then (st, Resp id_required)
            else
              match payload with
              | VDict upd =>
                  match Mongo.update_one_upsert (services_col st) (next_oid st)
                                                "id" sid upd with
                  | Mongo.Done (c, n) => (with_services st c n, Resp (status "ok"))
                  | Mongo.Fails e => (st, Crash e)
                  | Mongo.Unsupported => (st, Unmodelled)
                  end
              | _ => (st, Crash AttributeError)
              end
        end
    end).

Definition delete_service : handler :=
  admin_required (λ req st,
    (with_services st (Mongo.delete_one "id" (VStr (service_id req)) (services_col st))
                   (next_oid st),
     Resp (status "deleted"))).

(** ** The public views and the pages *)

(** [home] *)
Definition home : handler := λ req st, (st, Resp (Template "index.html")).

(** [get_services] *)
Definition get_services : handler := λ req st,
  (st, Resp (Json (VList (map VDict (Mongo.find (services_col st)))) 200)).

(** [get_service]: [jsonify(doc or {})] *)
Definition get_service : handler := λ req st,
  let doc := match Mongo.find_one "id" (VStr (service_id req)) (services_col st) with
             | Some d => VDict d
             | None => VNone
             end in
  (st, Resp (Json (py_or doc (VDict [])) 200)).

(** [admin_page]: it redirects where the other admin views answer 401. *)
Definition admin_page : handler := λ req st,
  if negb (truthy (get (session st) "admin_logged_in"))
  then (st, Resp (Redirect "/admin/login"))
  else (st, Resp (Template "admin.html")).

(** [manage_page] *)
Definition manage_page : handler :=
  admin_required (λ req st, (st, Resp (Template "manage.html"))).

(** [ai_search] *)
Definition ai_search : handler := λ req st,
  (st, Resp (Json (VDict [("message",
                           VStr "AI search not configured. Add vector DB + LLM.")]) 200)).

(** ** The admin created when the module is loaded *)

Definition with_admins (st : state) (c : Mongo.collection) (n : N) : state :=
  {| session := session st; services_col := services_col st; eng_col := eng_col st;
     admins_col := c; next_oid := n |}.

(** [admins_col.count_documents({})] *)
Definition count_documents (c : Mongo.collection) : nat := length c.

(** The last statement of the module; [admin_pwd] is the value of the
    environment variable [ADMIN_PWD], if it is set. *)
Definition ensure_admin (admin_pwd : option string) (st : state) : Mongo.answer state :=
  if count_documents (admins_col st) =? 0 then
    match Mongo.insert_one (admins_col st) (next_oid st)
            [("username", VStr "admin");
             ("password", VStr (default "admin123" admin_pwd))] with
    | Mongo.Done (c, n) => Mongo.Done (with_admins st c n)
    | Mongo.Fails e => Mongo.Fails e
    | Mongo.Unsupported => Mongo.Unsupported
    end
  else Mongo.Done st.

(* ===================================================================== *)
(** * The vocabulary of the statements                                  *)
(* ===================================================================== *)

(** ** The age histogram *)

Definition age_labels : list string := ["<18"; "18-25"; "26-40"; "41-60"; "60+"].

(** The age the first loop counts for a record: the field holds a value
    that is not falsy and that [int] accepts. *)
Definition counted_age (e : doc) : option Z :=
  let age := get e "age" in
  if truthy age then
    match py_int age with Ok n => Some n | Raise _ => None end
  else None.

(** The boundaries of the five cohorts, as the specification lists them. *)
Definition in_range (label : string) (n : Z) : bool :=
  if String.eqb label "<18" then (n <? 18)%Z
  else if String.eqb label "18-25" then ((18 <=? n) && (n <=? 25))%Z
  else if String.eqb label "26-40" then ((26 <=? n) && (n <=? 40))%Z
  else if String.eqb label "41-60" then ((41 <=? n) && (n <=? 60))%Z
  else if String.eqb label "60+" then (60 <? n)%Z
  else false.

Definition falls_in (label : string) (e : doc) : bool :=
  match counted_age e with
  | Some n => in_range label n
  | None => false
  end.

Definition has_counted_age (e : doc) : bool :=
  match counted_age e with Some _ => true | None => false end.

(** The age of a record as the specification words it: present, accepted by
    [int], and not negative. *)
Definition valid_age (e : doc) : bool :=
  match lookup_field e "age" with
  | Some VNone | None => false
  | Some v => match py_int v with Ok n => (0 <=? n)%Z | Raise _ => false end
  end.

Definition bucket_total (h : gmap string nat) : nat :=
  sum_list (map (λ b, h !!! b) age_labels).

Definition age_label (n : Z) : string :=
  if (n <? 18)%Z then "<18"
  else if (n <=? 25)%Z then "18-25"
  else if (n <=? 40)%Z then "26-40"
  else if (n <=? 60)%Z then "41-60"
  else "60+".

(** ** The job histogram *)

(** The key the second loop counts a record under. *)
Definition job_key (e : doc) : outcome string :=
  py_strip (py_or (get e "job") (VStr "Unknown")).

(** The job is a string, or falsy (missing, [None], ...). *)
Definition job_is_text (e : doc) : bool :=
  match get e "job" with
  | VStr _ => true
  | v => negb (truthy v)
  end.

(** The trimmed job, or "Unknown" when there is no job or an empty one. *)
Definition job_label (e : doc) : string :=
  match get e "job" with
  | VStr (String c s) => strip (String c s)
  | _ => "Unknown"
  end.

(** The key as the specification words it: the trimmed job, or "Unknown"
    when the field is absent. *)
Definition job_key_spec (e : doc) : string :=
  match lookup_field e "job" with
  | Some (VStr s) => strip s
  | _ => "Unknown"
  end.

Definition total (h : gmap string nat) : nat := map_fold (λ _ c t, c + t) 0 h.

Definition occurrences (j : string) (es : list doc) : nat :=
  length (List.filter (λ e, String.eqb (job_label e) j) es).

(** ** Premium leads *)

(** The count the [$group] stage holds for a key. *)
Fixpoint group_count (id : doc) (gs : list (doc * nat)) : nat :=
  match gs with
  | [] => 0
  | (i, n) :: r => if doc_eqb i id then n else group_count id r
  end.

Definition members (id : doc) (es : list doc) : nat :=
  length (List.filter (λ e, doc_eqb (group_id e) id) es).

Definition groups_wf (gs : list (doc * nat)) : Prop :=
  NoDup (map fst gs) ∧ Forall (λ g, 1 ≤ g.2) gs.

(** A premium lead [{user, question, count}]. *)
Definition lead (u q : value) (n : nat) : value :=
  VDict [("user", u); ("question", q); ("count", VInt (Z.of_nat n))].

(** The number of engagements of user [u] on question [q]. *)
Definition pair_count (u q : value) (es : list doc) : nat :=
  length (List.filter (λ e, value_eqb (get e "user_id") u &&
                            value_eqb (get e "question_clicked") q) es).

(** Both fields of the grouping key are stored, possibly as [null]. *)
Definition has_pair (e : doc) : bool :=
  match lookup_field e "user_id", lookup_field e "question_clicked" with
  | Some _, Some _ => true
  | _, _ => false
  end.

(** The shape [log_engagement] gives a record: both fields of the grouping
    key are stored, and the user is [null] or truthy. *)
Definition logged_shape (e : doc) : bool :=
  has_pair e &&
  match get e "user_id" with
  | VNone => true
  | u => truthy u
  end.

Definition pair_id (u q : value) : doc := [("user", u); ("question", q)].

Definition lead_of (g : doc * nat) : option value :=
  match lookup_field g.1 "user", lookup_field g.1 "question" with
  | Some u, Some q => if truthy u then Some (lead u q g.2) else None
  | _, _ => None
  end.

(** The list of the specification's example: user A on Q1 twice and on Q2
    once, an anonymous user on Q1 twice. *)
Definition engagement (u q : value) : doc :=
  [("user_id", u); ("age", VNone); ("job", VNone); ("desires", VList []);
   ("question_clicked", q); ("service", VNone)].

Definition example_engagements : list doc :=
  [engagement (VStr "A") (VStr "Q1"); engagement (VStr "A") (VStr "Q1");
   engagement (VStr "A") (VStr "Q2");
   engagement VNone (VStr "Q1"); engagement VNone (VStr "Q1")].

(** ** The session gate *)

Definition service_s1 : Mongo.stored :=
  {| Mongo.oid := 0;
     Mongo.body := [("id", VStr "s1"); ("name", VStr "Old"); ("description", VStr "D")] |}.

Definition anonymous_state : state :=
  {| session := []; services_col := [service_s1]; eng_col := []; admins_col := [];
     next_oid := 1 |}.

Definition admin_state : state :=
  {| session := [("admin_logged_in", VBool true); ("admin_user", VStr "admin")];
     services_col := [service_s1]; eng_col := []; admins_col := []; next_oid := 1 |}.

Definition noon : datetime :=
  {| year := 2024; month := 5; day := 17; hour := 12; minute := 0; second := 0;
     microsecond := 250999 |}%N.

Definition delete_s1 : request :=
  {| method := DELETE; json := VNone; form := []; service_id := "s1"; utcnow := noon |}.

(** ** Service upsert *)

Definition post_without_id : request :=
  {| method := POST; json := VDict [("name", VStr "Passport"); ("category", VStr "Travel")];
     form := []; service_id := EmptyString; utcnow := noon |}.

(** The payload is one the model of the store covers: plain field names, no
    [_id], every integer in 64 bits. *)
Definition storable_update (sid : value) (upd : doc) : bool :=
  Mongo.plain sid && Mongo.plain (VDict upd) &&
  forallb (λ kv, negb (String.eqb kv.1 "_id")) upd &&
  Mongo.encodable sid && Mongo.encodable (VDict upd).

Definition post_rename_s1 : request :=
  {| method := POST; json := VDict [("id", VStr "s1"); ("name", VStr "New")];
     form := []; service_id := EmptyString; utcnow := noon |}.

(** ** Logging an engagement *)

Definition empty_state : state :=
  {| session := []; services_col := []; eng_col := []; admins_col := []; next_oid := 0 |}.

Definition post_engagement (body : value) : request :=
  {| method := POST; json := body; form := []; service_id := EmptyString;
     utcnow := noon |}.

(** The fields of the record [log_engagement] builds from a payload. *)
Definition logged_fields (p : doc) (age : value) (now : datetime) : doc :=
  [("user_id", py_or (get p "user_id") VNone);
   ("age", age);
   ("job", get p "job");
   ("desires", py_or (get p "desires") (VList []));
   ("question_clicked", get p "question_clicked");
   ("service", get p "service");
   ("timestamp", VDate now)].

(** ** The CSV export *)

(** The text of several rows, one after the other. *)
Definition rows_text (rows : list (list string)) : string :=
  foldr (λ row text, writerow row +:+ text) EmptyString rows.

Fixpoint strings_of (l : list value) : option (list string) :=
  match l with
  | [] => Some []
  | VStr s :: r => cons s <$> strings_of r
  | _ :: _ => None
  end.

(** The desires of a record that follows the data model: a sequence of
    strings, or nothing. *)
Definition desire_strings (e : doc) : option (list string) :=
  match get e "desires" with
  | VList l => strings_of l
  | v => if truthy v then None else Some []
  end.

(** The timestamp column of a record whose timestamp is a datetime or is
    absent: ISO 8601 text, or the empty string. *)
Definition timestamp_text (e : doc) : option string :=
  match get e "timestamp" with
  | VDate t => Some (isoformat t)
  | v => if truthy v then None else Some EmptyString
  end.

(** The seven columns of a record, in the order of the header. *)
Definition columns (py_repr : value → string) (e : doc) (ds : list string)
    (ts : string) : list string :=
  [csv_text py_repr (get e "user_id"); csv_text py_repr (get e "age");
   csv_text py_repr (get e "job");
   join_strings "," ds;
   csv_text py_repr (get e "question_clicked"); csv_text py_repr (get e "service");
   ts].

(** *** Reading a CSV text

    A reader of the excel dialect, to state that the rows that were written
    can be read back: fields are separated by commas, rows end with CR LF, a
    field in quotes may hold commas, line ends and doubled quotes. *)

Inductive reader_mode := StartRow | StartField | InField | InQuoted | QuoteSeen | AfterCR.

Record reader := {
  mode : reader_mode;
  field : list ascii;
  row : list string;
  rows : list (list string)
}.

Definition end_field (r : reader) : list string :=
  row r ++ [string_of_list_ascii (field r)].

Definition read_char (r : reader) (c : ascii) : option reader :=
  let next_field := {| mode := StartField; field := []; row := end_field r; rows := rows r |} in
  let next_row := {| mode := AfterCR; field := []; row := []; rows := rows r ++ [end_field r] |} in
  let more := {| mode := InField; field := field r ++ [c]; row := row r; rows := rows r |} in
  match mode r with
  | StartRow =>
      if Ascii.eqb c quote_char then
        Some {| mode := InQuoted; field := []; row := row r; rows := rows r |}
      else if Ascii.eqb c ","%char then Some next_field
      else if Ascii.eqb c cr_char then
        Some {| mode := AfterCR; field := []; row := []; rows := rows r ++ [[]] |}
      else if Ascii.eqb c lf_char then None
      else Some more
  | StartField =>
      if Ascii.eqb c quote_char then
        Some {| mode := InQuoted; field := []; row := row r; rows := rows r |}
      else if Ascii.eqb c ","%char then Some next_field
      else if Ascii.eqb c cr_char then Some next_row
      else if Ascii.eqb c lf_char then None
      else Some more
  | InField =>
      if Ascii.eqb c ","%char then Some next_field
      else if Ascii.eqb c cr_char then Some next_row
      else if Ascii.eqb c lf_char then None
      else Some more
  | InQuoted =>
      if Ascii.eqb c quote_char then
        Some {| mode := QuoteSeen; field := field r; row := row r; rows := rows r |}
      else Some {| mode := InQuoted; field := field r ++ [c]; row := row r; rows := rows r |}
  | QuoteSeen =>
      if Ascii.eqb c quote_char then
        Some {| mode := InQuoted; field := field r ++ [c]; row := row r; rows := rows r |}
      else if Ascii.eqb c ","%char then Some next_field
      else if Ascii.eqb c cr_char then Some next_row
      else None
  | AfterCR =>
      if Ascii.eqb c lf_char then
        Some {| mode := StartRow; field := []; row := []; rows := rows r |}
      else None
  end.

Fixpoint read_chars (r : reader) (l : list ascii) : option reader :=
  match l with
  | [] => Some r
  | c :: l' => match read_char r c with Some r' => read_chars r' l' | None => None end
  end.

Definition read_csv (text : string) : option (list (list string)) :=
  match read_chars {| mode := StartRow; field := []; row := []; rows := [] |}
                   (list_ascii_of_string text) with
  | Some r => match mode r with StartRow => Some (rows r) | _ => None end
  | None => None
  end.

Definition start_mode (m : reader_mode) : Prop := m = StartRow ∨ m = StartField.

(** The mode the reader is in after the text of a field. *)
Definition mode_after (m : reader_mode) (s : string) : reader_mode :=
  if needs_quotes s then QuoteSeen
  else match s with EmptyString => m | String _ _ => InField end.

Definition visit : doc :=
  [("user_id", VStr "u1"); ("age", VInt 34); ("job", VStr "Nurse");
   ("desires", VList [VStr "a"; VStr "b"]); ("question_clicked", VStr "Q1");
   ("service", VStr "passport");
   ("timestamp", VDate (Mongo.to_millis noon))].

Definition bare_visit : doc := [("user_id", VNone)].

(** ** What the insights tolerate *)

Definition text_or_falsy (v : value) : bool :=
  match v with
  | VStr _ => true
  | v => negb (truthy v)
  end.

(** A record that follows the data model apart from its age: job, service
    and question are strings or falsy, the desires are a sequence of strings
    or absent, and both fields of the grouping key are stored. *)
Definition typed_engagement (e : doc) : bool :=
  job_is_text e && text_or_falsy (get e "service") &&
  text_or_falsy (get e "question_clicked") &&
  (match desire_strings e with Some _ => true | None => false end) &&
  has_pair e.

(** ** The service, question and desire histograms *)

(** [c.get(k, 0)] on a dictionary of counters. *)
Fixpoint counter_get (c : counter) (k : value) : nat :=
  match c with
  | [] => 0
  | (k', n) :: r => if key_eqb k' k then n else counter_get r k
  end.

(** The key the third loop counts a service or a question under: the value
    itself, or "Unknown" when it is missing, null or empty. *)
Definition label_of (v : value) : string :=
  match v with
  | VStr (String c s) => String c s
  | _ => "Unknown"
  end.

(** Service and question are strings or falsy, the desires are a sequence of
    strings or absent. *)
Definition counts_typed (e : doc) : bool :=
  text_or_falsy (get e "service") && text_or_falsy (get e "question_clicked") &&
  match desire_strings e with Some _ => true | None => false end.

Definition labelled (field label : string) (es : list doc) : nat :=
  length (List.filter (λ e, String.eqb (label_of (get e field)) label) es).

Definition count_str (x : string) (l : list string) : nat :=
  length (List.filter (String.eqb x) l).

(** How often the desire [x] occurs in the desires of all records. *)
Definition desired (x : string) (es : list doc) : nat :=
  sum_list (map (λ e, count_str x (default [] (desire_strings e))) es).

Definition two_visits : list doc :=
  [[("service", VStr "passport"); ("desires", VList [VStr "housing"; VStr "housing"])];
   [("question_clicked", VStr "Q1"); ("desires", VList [VStr "housing"; VStr "jobs"])]].

(** ** The service catalogue *)

Definition is_text (v : value) : bool :=
  match v with VStr _ => true | _ => false end.

(** The [id] of each stored service, in the order of the collection. *)
Definition service_ids (c : Mongo.collection) : list value :=
  map (λ s, get (Mongo.body s) "id") c.

(** Every service has a string [id], and no two services share one. *)
Definition distinct_ids (c : Mongo.collection) : Prop :=
  Forall (λ v, is_text v = true) (service_ids c) ∧ NoDup (service_ids c).

Definition get_request (sid : string) : request :=
  {| method := GET; json := VNone; form := []; service_id := sid; utcnow := noon |}.

Definition delete_request (sid : string) : request :=
  {| method := DELETE; json := VNone; form := []; service_id := sid; utcnow := noon |}.

Definition post_s2 : request :=
  {| method := POST; json := VDict [("id", VStr "s2"); ("name", VStr "Passport")];
     form := []; service_id := EmptyString; utcnow := noon |}.

(** ** The session *)

(** The handlers of all the routes of the application. *)
Definition routes (py_repr : value → string)
    (sort_desc : string → Mongo.collection → Mongo.collection) (oid_str : N → string)
    : list handler :=
  [home; get_services; get_service; log_engagement; admin_page; manage_page;
   admin_login; admin_logout; admin_insights; admin_engagements sort_desc oid_str;
   export_csv py_repr; admin_services; delete_service; ai_search].

Definition login_request (username password : string) : request :=
  {| method := POST; json := VNone;
     form := [("username", username); ("password", password)];
     service_id := EmptyString; utcnow := noon |}.

(** The store after the module is loaded for the first time, with
    [ADMIN_PWD] unset. *)
Definition fresh_state : state :=
  {| session := []; services_col := []; eng_col := [];
     admins_col := [{| Mongo.oid := 0;
                       Mongo.body := [("username", VStr "admin");
                                      ("password", VStr "admin123")] |}];
     next_oid := 1 |}.

(** ** Engagements of two users *)


(** ** What the export can write *)

(** The desires [",".join] accepts: a sequence of strings, a string, a
    dictionary, or any falsy value (replaced by the empty list). *)
Definition joinable (v : value) : bool :=
  match v with
  | VList l => forallb is_text l
  | VStr _ | VDict _ => true
  | VNone | VBool _ | VInt _ | VDate _ => negb (truthy v)
  end.

(** A record the export can write: joinable desires, and a timestamp that is
    a datetime or falsy. *)
Definition exportable (e : doc) : bool :=
  joinable (get e "desires") &&
  match get e "timestamp" with
  | VDate _ => true
  | v => negb (truthy v)
  end.

Definition numeric_desire : doc :=
  [("user_id", VStr "A"); ("desires", VList [VStr "housing"; VInt 7]);
   ("timestamp", VDate noon)].

(** An admin session over a store that holds the engagements [es]. *)
Definition admin_with (es : list doc) : state :=
  {| session := [("admin_logged_in", VBool true)]; services_col := [];
     eng_col := imap (λ i e, {| Mongo.oid := N.of_nat i; Mongo.body := e |}) es;
     admins_col := []; next_oid := N.of_nat (length es) |}.

(** ** Leads and a job that is a number *)

Definition post_numeric_job : request :=
  post_engagement (VDict [("user_id", VStr "A"); ("question_clicked", VStr "Q1");
                          ("job", VInt 5)]).

(** The store after the same user has asked the same question twice, giving
    a number as the job. *)
Definition asked_twice : state :=
  (log_engagement post_numeric_job (log_engagement post_numeric_job admin_state).1).1.

(** ** The listing *)

(** An item of the listing for a stored record: the [_id] as text first, the
    timestamp as ISO 8601 text, every other field as it is stored. *)
Definition lists (oid_str : N → string) (s : Mongo.stored) (item : value) : Prop :=
  ∃ e, item = VDict e ∧
       lookup_field e "_id" = Some (VStr (oid_str (Mongo.oid s))) ∧
       lookup_field e "timestamp" =
         match lookup_field (Mongo.body s) "timestamp" with
         | Some (VDate t) => Some (VStr (isoformat t))
         | other => other
         end ∧
       ∀ k, k ≠ "_id" → k ≠ "timestamp" →
            lookup_field e k = lookup_field (Mongo.body s) k.

Definition stored_visit : Mongo.stored :=
  {| Mongo.oid := 7;
     Mongo.body := [("user_id", VStr "A"); ("timestamp", VDate (Mongo.to_millis noon))] |}.

Definition one_visit : state :=
  {| session := [("admin_logged_in", VBool true)]; services_col := [];
     eng_col := [stored_visit]; admins_col := []; next_oid := 8 |}.

(* ===================================================================== *)
(** * Properties                                                         *)
(* ===================================================================== *)

(** ** Python and the store *)

Example int_of_str_plain : int_of_str "42" = Ok 42%Z.
Proof. reflexivity. Qed.
Example int_of_str_spaces : int_of_str "  -1_000 " = Ok (-1000)%Z.
Proof. reflexivity. Qed.
Example int_of_str_letters : int_of_str "abc" = Raise ValueError.
Proof. reflexivity. Qed.
Example int_of_str_double_underscore : int_of_str "1__0" = Raise ValueError.
Proof. reflexivity. Qed.
Example int_of_str_empty : int_of_str "  " = Raise ValueError.
Proof. reflexivity. Qed.
Example strip_both : strip "  Nurse  " = "Nurse".
Proof. reflexivity. Qed.

Lemma datetime_eqb_eq a b : datetime_eqb a b = true ↔ a = b.
Proof.
  destruct a, b; unfold datetime_eqb; simpl.
  rewrite !andb_true_iff, !N.eqb_eq. split.
  - intros [[[[[[-> ->] ->] ->] ->] ->] ->]. reflexivity.
  - intros [= -> -> -> -> -> -> ->]. repeat split.
Qed.

Lemma value_eqb_eq a : ∀ b, value_eqb a b = true ↔ a = b.
Proof.
  induction a as [ | x | x | x | x | l IH | d IH ] using value_ind';
    intros [ | y | y | y | y | l' | d' ]; simpl;
    try (split; [discriminate | intros [=]]); try tauto.
  - rewrite Bool.eqb_true_iff. split; congruence.
  - rewrite Z.eqb_eq. split; congruence.
  - rewrite String.eqb_eq. split; congruence.
  - rewrite datetime_eqb_eq. split; congruence.
  - revert l'. induction IH as [ | u l Hu _ IHl ]; intros [ | v l' ];
      try (split; [discriminate | intros [=]]); try tauto.
    rewrite andb_true_iff, Hu, IHl. split.
    + intros [-> [= ->]]. reflexivity.
    + intros [= -> ->]. tauto.
  - revert d'. induction IH as [ | [k u] d Hu _ IHd ]; intros [ | [k' v] d' ];
      try (split; [discriminate | intros [=]]); try tauto.
    simpl in Hu. rewrite !andb_true_iff, String.eqb_eq, Hu, IHd. split.
    + intros [[-> ->] [= ->]]. reflexivity.
    + intros [= -> -> ->]. tauto.
Qed.

Lemma doc_eqb_eq (i id : doc) : doc_eqb i id = true ↔ i = id.
Proof. unfold doc_eqb. rewrite value_eqb_eq. split; congruence. Qed.

Lemma doc_eqb_spec (i id : doc) : reflect (i = id) (doc_eqb i id).
Proof. apply iff_reflect. symmetry. apply doc_eqb_eq. Qed.

Example isoformat_whole_second :
  isoformat {| year := 2024; month := 3; day := 7; hour := 9; minute := 5;
               second := 0; microsecond := 0 |}%N = "2024-03-07T09:05:00".
Proof. reflexivity. Qed.
Example isoformat_fraction :
  isoformat {| year := 2024; month := 12; day := 31; hour := 23; minute := 59;
               second := 58; microsecond := 123000 |}%N = "2024-12-31T23:59:58.123000".
Proof. reflexivity. Qed.
Example string_of_Z_negative : string_of_Z (-25) = "-25".
Proof. reflexivity. Qed.

(** ** Documents *)

Lemma lookup_project keep e k :
  existsb (String.eqb k) keep = true →
  lookup_field (Mongo.project keep e) k = lookup_field e k.
Proof.
  intros Hk. induction e as [ | [k' v] e IH ]; [reflexivity | ].
  simpl. destruct (String.eqb k' k) eqn:E.
  - apply String.eqb_eq in E as ->. rewrite Hk. simpl.
    by rewrite String.eqb_refl.
  - destruct (existsb (String.eqb k') keep); simpl; [ rewrite E | ]; exact IH.
Qed.

Lemma get_project keep e k :
  existsb (String.eqb k) keep = true → get (Mongo.project keep e) k = get e k.
Proof. intros Hk. unfold get. by rewrite lookup_project. Qed.

Lemma lookup_set_field d k v k' :
  lookup_field (Mongo.set_field d k v) k' =
  if String.eqb k k' then Some v else lookup_field d k'.
Proof.
  induction d as [ | [k0 v0] d IH ]; simpl.
  - reflexivity.
  - destruct (String.eqb_spec k0 k) as [-> | Hne]; simpl.
    + destruct (String.eqb k k'); reflexivity.
    + rewrite IH. destruct (String.eqb_spec k0 k') as [-> | Hne'].
      * destruct (String.eqb_spec k k'); [congruence | reflexivity].
      * reflexivity.
Qed.

Lemma lookup_field_None d k : k ∉ map fst d → lookup_field d k = None.
Proof.
  induction d as [ | [k0 v0] d IH ]; simpl; [done | ].
  rewrite not_elem_of_cons. intros [Hne Hk].
  destruct (String.eqb_spec k0 k); [congruence | by apply IH].
Qed.

(** [$set] of several fields: a field of the update takes the new value, any
    other field keeps the old one. *)
Lemma lookup_set_fields upd : ∀ d k,
  NoDup (map fst upd) →
  lookup_field (Mongo.set_fields d upd) k =
  match lookup_field upd k with
  | Some v => Some v
  | None => lookup_field d k
  end.
Proof.
  unfold Mongo.set_fields.
  induction upd as [ | [k0 v0] upd IH ]; intros d k Hnd; simpl; [reflexivity | ].
  apply NoDup_cons in Hnd as [Hk0 Hnd].
  rewrite IH by done. rewrite lookup_set_field.
  destruct (String.eqb_spec k0 k) as [-> | Hne]; [ | reflexivity ].
  by rewrite lookup_field_None.
Qed.

Lemma lookup_decoded_doc d k :
  lookup_field (Mongo.decoded_doc d) k = Mongo.decoded <$> lookup_field d k.
Proof.
  induction d as [ | [k0 v0] d IH ]; simpl; [reflexivity | ].
  destruct (String.eqb k0 k); [reflexivity | exact IH].
Qed.

Lemma decoded_doc_keys d : map fst (Mongo.decoded_doc d) = map fst d.
Proof. unfold Mongo.decoded_doc. rewrite map_map. reflexivity. Qed.

Lemma update_first_Some p f c c' :
  Mongo.update_first p f c = Some c' →
  ∃ pre s post,
    c = pre ++ s :: post ∧
    Forall (λ x, p (Mongo.body x) = false) pre ∧
    p (Mongo.body s) = true ∧
    c' = pre ++ {| Mongo.oid := Mongo.oid s; Mongo.body := f (Mongo.body s) |} :: post.
Proof.
  revert c'. induction c as [ | s c IH ]; intros c'; simpl; [discriminate | ].
  destruct (p (Mongo.body s)) eqn:Hp.
  - intros [= <-]. exists [], s, c. repeat split; done.
  - destruct (Mongo.update_first p f c) as [c0 | ]; simpl; [ | discriminate ].
    intros [= <-]. destruct (IH c0 eq_refl) as (pre & s' & post & -> & Hpre & Hs & ->).
    exists (s :: pre), s', post. repeat split; try done. by apply Forall_cons.
Qed.

Lemma update_first_None p f c :
  Mongo.update_first p f c = None → Forall (λ x, p (Mongo.body x) = false) c.
Proof.
  induction c as [ | s c IH ]; simpl; [constructor | ].
  destruct (p (Mongo.body s)) eqn:Hp; [discriminate | ].
  destruct (Mongo.update_first p f c); simpl; [discriminate | ].
  intros _. apply Forall_cons. split; [done | by apply IH].
Qed.

Lemma foldM_app {A B} (f : B → A → outcome B) l1 l2 acc :
  foldM f acc (l1 ++ l2) = (acc' ← foldM f acc l1; foldM f acc' l2).
Proof.
  revert acc. induction l1 as [ | x l1 IH ]; intros acc; [reflexivity | ].
  simpl. destruct (f acc x) as [acc' | e]; simpl; [apply IH | reflexivity].
Qed.

(** ** The age histogram *)

Lemma age_step_counted groups e :
  age_step groups e =
  match counted_age e with
  | Some n => incr (age_label n) groups
  | None => groups
  end.
Proof.
  unfold age_step, counted_age, age_label.
  destruct (truthy (get e "age")); simpl; [ | reflexivity ].
  destruct (py_int (get e "age")) as [n | ]; [ | reflexivity ].
  repeat case_match; reflexivity.
Qed.

Ltac zcases :=
  repeat match goal with
    | |- context [(?a <? ?b)%Z] => destruct (Z.ltb_spec a b)
    | |- context [(?a <=? ?b)%Z] => destruct (Z.leb_spec a b)
    end.

Lemma in_range_label b n : in_range b n = true ↔ b = age_label n.
Proof.
  unfold in_range, age_label.
  destruct (String.eqb_spec b "<18") as [-> | N1];
    [ zcases; simpl; split; intros; first [reflexivity | discriminate | exfalso; lia] | ].
  destruct (String.eqb_spec b "18-25") as [-> | N2];
    [ zcases; simpl; split; intros; first [reflexivity | discriminate | exfalso; lia] | ].
  destruct (String.eqb_spec b "26-40") as [-> | N3];
    [ zcases; simpl; split; intros; first [reflexivity | discriminate | exfalso; lia] | ].
  destruct (String.eqb_spec b "41-60") as [-> | N4];
    [ zcases; simpl; split; intros; first [reflexivity | discriminate | exfalso; lia] | ].
  destruct (String.eqb_spec b "60+") as [-> | N5];
    [ zcases; simpl; split; intros; first [reflexivity | discriminate | exfalso; lia] | ].
  split; [discriminate | ]. intros E. revert N1 N2 N3 N4 N5. rewrite E.
  zcases; congruence.
Qed.

Lemma counted_age_project e : counted_age (Mongo.project ["age"] e) = counted_age e.
Proof. unfold counted_age. by rewrite get_project. Qed.

Lemma falls_in_project b e : falls_in b (Mongo.project ["age"] e) = falls_in b e.
Proof. unfold falls_in. by rewrite counted_age_project. Qed.

Lemma age_fold_lookup es : ∀ (groups : gmap string nat) b,
  foldl age_step groups es !! b =
  (λ c, c + length (List.filter (falls_in b) es)) <$> (groups !! b).
Proof.
  induction es as [ | e es IH ]; intros groups b; simpl.
  - destruct (groups !! b); simpl; f_equal; lia.
  - rewrite IH, age_step_counted. unfold falls_in.
    destruct (counted_age e) as [n | ]; [ | reflexivity ].
    unfold incr. rewrite lookup_alter.
    destruct (in_range b n) eqn:R.
    + apply in_range_label in R as <-. rewrite decide_True by done.
      destruct (groups !! b); simpl; f_equal; lia.
    + assert (age_label n ≠ b) as Hne.
      { intros <-. assert (in_range (age_label n) n = true) by by apply in_range_label.
        congruence. }
      by rewrite decide_False.
Qed.

Lemma age_loop_lookup es b :
  age_loop es !! b =
  (λ _, length (List.filter (falls_in b) es)) <$> (age_groups_init !! b).
Proof.
  unfold age_loop. rewrite age_fold_lookup.
  assert (length (List.filter (falls_in b) (map (Mongo.project ["age"]) es)) =
          length (List.filter (falls_in b) es)) as ->.
  { induction es as [ | e es IH ]; [reflexivity | ]. simpl.
    rewrite falls_in_project. destruct (falls_in b e); simpl; by rewrite IH. }
  destruct (age_groups_init !! b) as [c | ] eqn:E; [ | reflexivity ].
  simpl. f_equal.
  assert (c = 0) as ->; [ | reflexivity ].
  revert E. unfold age_groups_init.
  rewrite !lookup_insert. repeat case_decide; rewrite ?lookup_empty; congruence.
Qed.

Lemma age_groups_init_lookup b : b ∈ age_labels → age_groups_init !! b = Some 0.
Proof.
  unfold age_labels. rewrite !elem_of_cons, elem_of_nil.
  intros [-> | [-> | [-> | [-> | [-> | []]]]]]; reflexivity.
Qed.

Lemma age_groups_init_dom : dom age_groups_init = list_to_set age_labels.
Proof.
  unfold age_groups_init, age_labels. rewrite !dom_insert_L, dom_empty_L.
  simpl. reflexivity.
Qed.

Lemma in_range_exclusive n :
  (if in_range "<18" n then 1 else 0) + (if in_range "18-25" n then 1 else 0) +
  (if in_range "26-40" n then 1 else 0) + (if in_range "41-60" n then 1 else 0) +
  (if in_range "60+" n then 1 else 0) = 1.
Proof. unfold in_range. simpl. zcases; simpl; lia. Qed.

Lemma length_filter_cons {A} (f : A → bool) x l :
  length (List.filter f (x :: l)) = (if f x then 1 else 0) + length (List.filter f l).
Proof. simpl. by destruct (f x). Qed.

Lemma falls_in_once e :
  (if falls_in "<18" e then 1 else 0) + (if falls_in "18-25" e then 1 else 0) +
  (if falls_in "26-40" e then 1 else 0) + (if falls_in "41-60" e then 1 else 0) +
  (if falls_in "60+" e then 1 else 0) = if has_counted_age e then 1 else 0.
Proof.
  unfold falls_in, has_counted_age.
  destruct (counted_age e) as [n | ]; [apply in_range_exclusive | reflexivity].
Qed.

Lemma falls_in_total es :
  length (List.filter (falls_in "<18") es) + length (List.filter (falls_in "18-25") es) +
  length (List.filter (falls_in "26-40") es) + length (List.filter (falls_in "41-60") es) +
  length (List.filter (falls_in "60+") es) =
  length (List.filter has_counted_age es).
Proof.
  induction es as [ | e es IH ]; [reflexivity | ].
  rewrite !length_filter_cons. pose proof (falls_in_once e). lia.
Qed.

(** C1 (as stated) fails. A record whose age is [0] has a present,
    parseable, non-negative age, yet the loop skips it
    ([if not age: continue]): every bucket stays at zero and the bucket total
    is not the number of records with a valid age. A record whose age is
    [-5] has no valid age, yet it is counted, in the first bucket. *)
Lemma age_zero_is_skipped :
  (let es := [[("age", VInt 0)]] in
   Forall (λ e, valid_age e = true) es ∧
   age_loop es = age_groups_init ∧
   bucket_total (age_loop es) ≠ length (List.filter valid_age es)) ∧
  (let es := [[("age", VInt (-5))]] in
   Forall (λ e, valid_age e = false) es ∧
   age_loop es !! "<18" = Some 1 ∧
   bucket_total (age_loop es) ≠ length (List.filter valid_age es)).
Proof.
  split; simpl; (split; [ | split ]).
  - repeat constructor.
  - reflexivity.
  - vm_compute. discriminate.
  - repeat constructor.
  - reflexivity.
  - vm_compute. discriminate.
Qed.

(** Both ages are stored by the public endpoint: the body [{"age": "0"}]
    is stored with the age [0], which the insights then skip. *)
Example zero_age_is_stored :
  ∃ st' e,
    log_engagement (post_engagement (VDict [("age", VStr "0")])) empty_state
      = (st', Resp (status "ok")) ∧
    Mongo.find (eng_col st') = [e] ∧ get e "age" = VInt 0 ∧
    age_loop (Mongo.find (eng_col st')) = age_groups_init.
Proof. eexists. eexists. repeat split; reflexivity. Qed.

Example negative_age_is_stored :
  ∃ st' e,
    log_engagement (post_engagement (VDict [("age", VInt (-5))])) empty_state
      = (st', Resp (status "ok")) ∧
    Mongo.find (eng_col st') = [e] ∧ get e "age" = VInt (-5) ∧
    age_loop (Mongo.find (eng_col st')) !! "<18" = Some 1.
Proof. eexists. eexists. repeat split; reflexivity. Qed.

(** C1 (amended). The age histogram always has exactly the five buckets
    "<18", "18-25", "26-40", "41-60", "60+". A record is counted when its age
    is truthy (present, not null, not zero, not empty) and accepted by [int];
    it is then counted in exactly one bucket, the one whose range
    (age<18, 18..25, 26..40, 41..60, age>60) holds the coerced age. Records
    with a missing, falsy or unparseable age are not counted, and the sum of
    the five counts is the number of counted records. *)
Theorem age_histogram_counts (es : list doc) :
  dom (age_loop es) = list_to_set age_labels ∧
  (∀ b, b ∈ age_labels →
        age_loop es !! b = Some (length (List.filter (falls_in b) es))) ∧
  (∀ n, ∃ b, b ∈ age_labels ∧ ∀ b', in_range b' n = true ↔ b' = b) ∧
  (∀ e, has_counted_age e = false → ∀ b, falls_in b e = false) ∧
  bucket_total (age_loop es) = length (List.filter has_counted_age es).
Proof.
  assert (∀ b, b ∈ age_labels →
             age_loop es !! b = Some (length (List.filter (falls_in b) es))) as Hb.
  { intros b Hb. rewrite age_loop_lookup, age_groups_init_lookup; done. }
  split; [ | split; [exact Hb | split; [ | split ] ] ].
  - rewrite <- age_groups_init_dom. apply set_eq. intros b.
    rewrite !elem_of_dom, age_loop_lookup.
    destruct (age_groups_init !! b); simpl; split; intros [? ?]; eauto; discriminate.
  - intros n. exists (age_label n). split; [ | intros b'; apply in_range_label ].
    unfold age_label, age_labels. zcases; set_solver.
  - intros e He b. unfold has_counted_age in He. unfold falls_in.
    destruct (counted_age e); [discriminate | reflexivity].
  - unfold bucket_total. simpl.
    rewrite !lookup_total_alt, !Hb by (unfold age_labels; set_solver).
    simpl. rewrite <- falls_in_total. lia.
Qed.

(** ** The job histogram *)

Lemma job_key_label e : job_is_text e = true → job_key e = Ok (job_label e).
Proof.
  unfold job_is_text, job_key, job_label, py_or.
  destruct (get e "job") as [ | [] | n | [ | c s] | t | [ | x l] | [ | x d] ];
    simpl; try discriminate; try reflexivity.
  destruct (n =? 0)%Z; simpl; [reflexivity | discriminate].
Qed.

Lemma job_is_text_project e : job_is_text (Mongo.project ["job"] e) = job_is_text e.
Proof. unfold job_is_text. by rewrite get_project. Qed.

Lemma job_label_project e : job_label (Mongo.project ["job"] e) = job_label e.
Proof. unfold job_label. by rewrite get_project. Qed.

Lemma total_bump (m : gmap string nat) j :
  total (<[j := default 0 (m !! j) + 1]> m) = S (total m).
Proof.
  unfold total. destruct (m !! j) as [c | ] eqn:E; simpl.
  - rewrite <- insert_delete_eq.
    rewrite map_fold_insert_L; [ | intros; lia | apply lookup_delete_eq ].
    rewrite (map_fold_delete_L _ _ j c m); [lia | intros; lia | done].
  - rewrite map_fold_insert_L; [lia | intros; lia | done].
Qed.

Lemma jobs_step_text acc e :
  job_is_text e = true →
  jobs_step acc e = Ok (<[job_label e := default 0 (acc !! job_label e) + 1]> acc).
Proof.
  intros He. unfold jobs_step.
  change (py_strip (py_or (get e "job") (VStr "Unknown"))) with (job_key e).
  by rewrite job_key_label.
Qed.

Lemma occurrences_project j es :
  occurrences j (map (Mongo.project ["job"]) es) = occurrences j es.
Proof.
  unfold occurrences. induction es as [ | e es IH ]; [reflexivity | ].
  rewrite map_cons, !length_filter_cons, job_label_project. by rewrite IH.
Qed.

Lemma jobs_fold es : ∀ (acc : gmap string nat),
  Forall (λ e, job_is_text e = true) es →
  ∃ h, foldM jobs_step acc es = Ok h ∧
       (∀ j, h !! j = match acc !! j with
                      | Some c => Some (c + occurrences j es)
                      | None => if occurrences j es =? 0 then None
                                else Some (occurrences j es)
                      end) ∧
       total h = total acc + length es.
Proof.
  induction es as [ | e es IH ]; intros acc Hes.
  - exists acc. split; [reflexivity | split ].
    + intros j. unfold occurrences; simpl. destruct (acc !! j); f_equal; lia.
    + simpl. lia.
  - apply Forall_cons in Hes as [He Hes].
    simpl. rewrite jobs_step_text by done. simpl.
    destruct (IH (<[job_label e := default 0 (acc !! job_label e) + 1]> acc) Hes)
      as (h & Hh & Hlook & Htot).
    exists h. split; [exact Hh | split ].
    + intros j. rewrite Hlook. unfold occurrences. rewrite length_filter_cons.
      fold (occurrences j es).
      destruct (String.eqb_spec (job_label e) j) as [-> | Hne].
      * rewrite lookup_insert_eq. destruct (acc !! j); simpl; f_equal; lia.
      * rewrite lookup_insert_ne by done. reflexivity.
    + rewrite Htot, total_bump. simpl. lia.
Qed.

(** C9 (as stated) fails: a record whose job is the empty string has a job
    field, and its trimmed job is the empty string; the loop counts it under
    "Unknown" ([e.get("job") or "Unknown"]) and the histogram has no entry
    for its trimmed job. *)
Lemma empty_job_counts_as_unknown :
  let e := [("job", VStr EmptyString)] in
  job_key_spec e = EmptyString ∧
  ∃ h, jobs_loop [e] = Ok h ∧ h !! job_key_spec e = None ∧ h !! "Unknown" = Some 1.
Proof.
  simpl. split; [reflexivity | ].
  eexists. split; [reflexivity | split; reflexivity ].
Qed.

(** The public endpoint stores an empty job as it is given. *)
Example empty_job_is_stored :
  ∃ st' e,
    log_engagement (post_engagement (VDict [("job", VStr EmptyString)])) empty_state
      = (st', Resp (status "ok")) ∧
    Mongo.find (eng_col st') = [e] ∧ get e "job" = VStr EmptyString.
Proof. eexists. eexists. repeat split; reflexivity. Qed.

(** C9 (amended). When every job is a string or falsy, the job histogram
    maps each trimmed job string - or "Unknown" when the job is missing,
    null or empty - to the number of engagements with that job: every
    engagement is counted once, under exactly that key, and keys that no
    engagement has are absent. *)
Theorem jobs_histogram_counts (es : list doc)
    (Htext : Forall (λ e, job_is_text e = true) es) :
  ∃ h, jobs_loop es = Ok h ∧
       (∀ j, h !! j = if occurrences j es =? 0 then None
                      else Some (occurrences j es)) ∧
       total h = length es.
Proof.
  unfold jobs_loop.
  destruct (jobs_fold (map (Mongo.project ["job"]) es) ∅) as (h & Hh & Hlook & Htot).
  { apply Forall_map. eapply Forall_impl; [exact Htext | ].
    intros e He. simpl. by rewrite job_is_text_project. }
  exists h. split; [exact Hh | split ].
  - intros j. rewrite Hlook, lookup_empty, occurrences_project. reflexivity.
  - rewrite Htot, length_map. unfold total. by rewrite map_fold_empty.
Qed.

Lemma jobs_histogram_counts_witness :
  let es := [[("job", VStr "  Nurse ")]; []; [("job", VStr "Nurse")]] in
  Forall (λ e, job_is_text e = true) es ∧
  ∃ h, jobs_loop es = Ok h ∧
       (∀ j, h !! j = if occurrences j es =? 0 then None
                      else Some (occurrences j es)) ∧
       total h = length es.
Proof.
  split.
  - repeat constructor.
  - apply jobs_histogram_counts. repeat constructor.
Defined.

(** ** Premium leads *)

Lemma group_count_add id id' gs :
  group_count id' (group_add id gs) =
  if doc_eqb id id' then S (group_count id' gs) else group_count id' gs.
Proof.
  induction gs as [ | [i n] gs IH ]; simpl.
  - destruct (doc_eqb_spec id id'); reflexivity.
  - destruct (doc_eqb_spec i id) as [-> | Hne]; simpl.
    + destruct (doc_eqb_spec id id'); reflexivity.
    + rewrite IH. destruct (doc_eqb_spec i id') as [-> | Hne'].
      * destruct (doc_eqb_spec id id'); [congruence | reflexivity].
      * reflexivity.
Qed.

Lemma group_fold_count id es : ∀ gs,
  group_count id (foldl (λ gs e, group_add (group_id e) gs) gs es) =
  group_count id gs + members id es.
Proof.
  unfold members. induction es as [ | e es IH ]; intros gs; simpl; [lia | ].
  rewrite IH, group_count_add.
  destruct (doc_eqb (group_id e) id); simpl; lia.
Qed.

Lemma group_stage_count id es : group_count id (group_stage es) = members id es.
Proof. unfold group_stage. by rewrite group_fold_count. Qed.

Lemma group_add_keys id gs i :
  i ∈ map fst (group_add id gs) → i = id ∨ i ∈ map fst gs.
Proof.
  induction gs as [ | [i' n] gs IH ]; simpl.
  - rewrite list_elem_of_singleton. tauto.
  - destruct (doc_eqb i' id); simpl; rewrite !elem_of_cons.
    + tauto.
    + intros [-> | H]; [tauto | ]. destruct (IH H); tauto.
Qed.

Lemma group_add_wf id gs : groups_wf gs → groups_wf (group_add id gs).
Proof.
  intros [Hnd Hpos]. induction gs as [ | [i n] gs IH ]; simpl.
  - split; [apply NoDup_singleton | repeat constructor].
  - simpl in Hnd. apply NoDup_cons in Hnd as [Hi Hnd].
    apply Forall_cons in Hpos as [Hn Hpos].
    destruct (doc_eqb_spec i id) as [-> | Hne]; simpl.
    + split; [by apply NoDup_cons | ]. apply Forall_cons. simpl in *. split; [lia | done].
    + destruct (IH Hnd Hpos) as [Hnd' Hpos']. split.
      * apply NoDup_cons. split; [ | done].
        intros Hin. apply group_add_keys in Hin. destruct Hin as [E | Hin]; tauto.
      * by apply Forall_cons.
Qed.

Lemma group_stage_wf es : groups_wf (group_stage es).
Proof.
  unfold group_stage.
  assert (∀ gs, groups_wf gs →
            groups_wf (foldl (λ gs e, group_add (group_id e) gs) gs es)) as H.
  { induction es as [ | e es IH ]; intros gs Hgs; simpl; [done | ].
    apply IH. by apply group_add_wf. }
  apply H. split; [apply NoDup_nil_2 | constructor].
Qed.

Lemma group_count_elem gs i n :
  NoDup (map fst gs) → (i, n) ∈ gs → group_count i gs = n.
Proof.
  induction gs as [ | [i' n'] gs IH ]; simpl; intros Hnd Hin.
  - by apply elem_of_nil in Hin.
  - apply NoDup_cons in Hnd as [Hi Hnd]. apply elem_of_cons in Hin as [[= <- <-] | Hin].
    + by destruct (doc_eqb_spec i i).
    + destruct (doc_eqb_spec i' i) as [-> | Hne]; [ | by apply IH ].
      exfalso. apply Hi. apply list_elem_of_fmap. by exists (i, n).
Qed.

Lemma group_count_positive gs i :
  1 ≤ group_count i gs → (i, group_count i gs) ∈ gs.
Proof.
  induction gs as [ | [i' n'] gs IH ]; simpl; intros Hpos; [lia | ].
  destruct (doc_eqb_spec i' i) as [-> | Hne].
  - apply elem_of_cons. by left.
  - apply elem_of_cons. right. by apply IH.
Qed.

(** The groups are the keys that occur, each with its number of members. *)
Lemma group_stage_elem es i n :
  (i, n) ∈ group_stage es ↔ n = members i es ∧ 1 ≤ n.
Proof.
  destruct (group_stage_wf es) as [Hnd Hpos]. split.
  - intros Hin. split.
    + rewrite <- group_stage_count. symmetry. by apply group_count_elem.
    + rewrite Forall_forall in Hpos. apply (Hpos _ Hin).
  - intros [-> Hn]. rewrite <- group_stage_count in *. by apply group_count_positive.
Qed.

Lemma group_id_pair e :
  has_pair e = true → group_id e = pair_id (get e "user_id") (get e "question_clicked").
Proof.
  unfold has_pair, group_id, get, pair_id.
  destruct (lookup_field e "user_id"), (lookup_field e "question_clicked");
    try discriminate; reflexivity.
Qed.

Lemma pair_id_eqb u q u' q' :
  doc_eqb (pair_id u q) (pair_id u' q') = value_eqb u u' && value_eqb q q'.
Proof. unfold doc_eqb, pair_id. simpl. by rewrite andb_true_r. Qed.

Lemma members_pair u q es :
  Forall (λ e, has_pair e = true) es → members (pair_id u q) es = pair_count u q es.
Proof.
  unfold members, pair_count. induction 1 as [ | e es He _ IH ]; [reflexivity | ].
  rewrite !length_filter_cons, IH, group_id_pair, pair_id_eqb by done. reflexivity.
Qed.

Lemma members_positive id es :
  1 ≤ members id es → ∃ e, e ∈ es ∧ group_id e = id.
Proof.
  unfold members. induction es as [ | e es IH ]; simpl; [lia | ].
  destruct (doc_eqb_spec (group_id e) id) as [E | _]; simpl.
  - intros _. exists e. split; [apply elem_of_cons; by left | done].
  - intros H. destruct (IH H) as (e' & He' & E'). exists e'.
    split; [apply elem_of_cons; by right | done].
Qed.

Lemma suggestion_step_row acc g :
  is_Some (lookup_field g.1 "user") → is_Some (lookup_field g.1 "question") →
  suggestion_step acc (group_row g) =
  Ok (match lead_of g with Some l => acc ++ [l] | None => acc end).
Proof.
  intros [u Hu] [q Hq]. unfold suggestion_step, lead_of, group_row. simpl.
  rewrite Hu, Hq. simpl. destruct (truthy u); reflexivity.
Qed.

Lemma suggestions_rows gs : ∀ acc,
  Forall (λ g, is_Some (lookup_field g.1 "user") ∧
               is_Some (lookup_field g.1 "question")) gs →
  foldM suggestion_step acc (map group_row gs) = Ok (acc ++ omap lead_of gs).
Proof.
  induction gs as [ | g gs IH ]; intros acc Hgs; simpl.
  - by rewrite app_nil_r.
  - apply Forall_cons in Hgs as [[Hu Hq] Hgs].
    rewrite suggestion_step_row by done. simpl. rewrite IH by done.
    destruct (lead_of g); [by rewrite <- app_assoc | reflexivity].
Qed.

(** Whatever the store holds, a lead that is produced has a truthy user. *)
Lemma suggestions_truthy rows : ∀ acc leads,
  Forall (λ l, ∃ u, getitem l "user" = Ok u ∧ truthy u = true) acc →
  foldM suggestion_step acc rows = Ok leads →
  Forall (λ l, ∃ u, getitem l "user" = Ok u ∧ truthy u = true) leads.
Proof.
  induction rows as [ | r rows IH ]; intros acc leads Hacc; simpl.
  - intros [= <-]. exact Hacc.
  - destruct (suggestion_step acc r) as [acc' | ] eqn:E; simpl; [ | discriminate ].
    apply IH. revert E. unfold suggestion_step.
    destruct (getitem r "_id") as [id | ]; simpl; [ | discriminate ].
    destruct (getitem id "user") as [u | ]; simpl; [ | discriminate ].
    destruct (truthy u) eqn:Hu; simpl; [ | by intros [= <-] ].
    destruct (getitem id "question") as [q | ]; simpl; [ | discriminate ].
    destruct (getitem r "count") as [c | ]; simpl; [ | discriminate ].
    intros [= <-]. apply Forall_app. split; [exact Hacc | ].
    apply Forall_singleton. exists u. split; [reflexivity | exact Hu].
Qed.

Lemma lead_inj u q n u' q' n' : lead u q n = lead u' q' n' → u = u' ∧ q = q' ∧ n = n'.
Proof. intros [= -> -> H]. apply Nat2Z.inj in H. tauto. Qed.

Lemma filter_keys_NoDup {A B} (f : A * B → bool) (l : list (A * B)) :
  NoDup (map fst l) → NoDup (map fst (List.filter f l)).
Proof.
  induction l as [ | x l IH ]; simpl; [done | ].
  intros Hnd. apply NoDup_cons in Hnd as [Hx Hnd].
  destruct (f x); simpl; [ | by apply IH ].
  apply NoDup_cons. split; [ | by apply IH ].
  intros Hin. apply Hx. apply list_elem_of_fmap in Hin as (y & -> & Hy).
  apply list_elem_of_fmap. exists y. split; [done | ].
  apply list_elem_of_In in Hy. apply filter_In in Hy as [Hy _].
  by apply list_elem_of_In.
Qed.

Lemma leads_NoDup gs :
  NoDup (map fst gs) →
  Forall (λ g, ∃ u q, g.1 = pair_id u q) gs →
  NoDup (omap lead_of gs).
Proof.
  induction gs as [ | g gs IH ]; simpl; intros Hnd Hgs; [apply NoDup_nil_2 | ].
  apply NoDup_cons in Hnd as [Hg Hnd]. apply Forall_cons in Hgs as [(u & q & Eg) Hgs].
  destruct (lead_of g) as [l | ] eqn:El; [ | by apply IH ].
  apply NoDup_cons. split; [ | by apply IH ].
  intros Hin. apply list_elem_of_omap in Hin as (g' & Hg' & El').
  apply Hg. apply list_elem_of_fmap. exists g'. split; [ | done ].
  rewrite Forall_forall in Hgs. destruct (Hgs _ Hg') as (u' & q' & Eg').
  revert El El'. unfold lead_of. rewrite Eg, Eg'. simpl.
  destruct (truthy u); [ | discriminate ]. destruct (truthy u'); [ | discriminate ].
  intros [= <-] [= H1 H2 _]. congruence.
Qed.

Lemma match_stage_elem es g :
  Forall (λ e, has_pair e = true) es →
  g ∈ match_stage (group_stage es) →
  ∃ u q, g = (pair_id u q, pair_count u q es) ∧ 2 ≤ pair_count u q es.
Proof.
  intros Hp Hg. unfold match_stage in Hg.
  apply list_elem_of_In, filter_In in Hg as [Hg H2].
  apply list_elem_of_In in Hg. destruct g as [i n].
  apply (proj1 (Nat.leb_le 2 n)) in H2. apply group_stage_elem in Hg as [-> Hn].
  destruct (members_positive i es Hn) as (e & He & <-).
  rewrite Forall_forall in Hp. pose proof (Hp e He) as Hpe.
  rewrite group_id_pair in * by done.
  rewrite members_pair in * by (by apply Forall_forall).
  eauto.
Qed.

Lemma match_stage_pair es u q :
  Forall (λ e, has_pair e = true) es →
  2 ≤ pair_count u q es →
  (pair_id u q, pair_count u q es) ∈ match_stage (group_stage es).
Proof.
  intros Hp H2. unfold match_stage.
  apply list_elem_of_In, filter_In. split.
  - apply list_elem_of_In, group_stage_elem. rewrite members_pair by done. lia.
  - by apply (proj2 (Nat.leb_le 2 (pair_count u q es))).
Qed.

(** The premium-lead list when every record stores both fields of the key:
    one lead for each pair (user, question) that occurs at least twice and
    whose user is truthy. *)
Lemma premium_leads_truthy (es : list doc) :
  Forall (λ e, has_pair e = true) es →
  ∃ leads, suggestions (aggregate es) = Ok leads ∧ NoDup leads ∧
           (∀ l, l ∈ leads → ∃ u q n, l = lead u q n) ∧
           ∀ u q n, lead u q n ∈ leads ↔
                    truthy u = true ∧ n = pair_count u q es ∧ 2 ≤ n.
Proof.
  intros Hp. exists (omap lead_of (match_stage (group_stage es))).
  assert (Forall (λ g, ∃ u q, g.1 = pair_id u q) (match_stage (group_stage es))) as Hids.
  { apply Forall_forall. intros g Hg.
    destruct (match_stage_elem es g Hp Hg) as (u & q & -> & _). eauto. }
  split; [ | split; [ | split ] ].
  - unfold suggestions, aggregate. rewrite suggestions_rows; [reflexivity | ].
    eapply Forall_impl; [exact Hids | ]. intros g (u & q & ->). simpl. eauto.
  - apply leads_NoDup; [ | exact Hids ].
    apply filter_keys_NoDup, group_stage_wf.
  - intros l Hl. apply list_elem_of_omap in Hl as (g & Hg & El).
    destruct (match_stage_elem es g Hp Hg) as (u & q & -> & _).
    revert El. unfold lead_of. simpl. destruct (truthy u); [ | discriminate ].
    intros [= <-]. eauto.
  - intros u q n. rewrite list_elem_of_omap. split.
    + intros (g & Hg & El).
      destruct (match_stage_elem es g Hp Hg) as (u' & q' & -> & H2).
      revert El. unfold lead_of. simpl. destruct (truthy u') eqn:Hu; [ | discriminate ].
      intros El.
      destruct (lead_inj u' q' (pair_count u' q' es) u q n) as (-> & -> & <-);
        [congruence | done].
    + intros (Hu & -> & H2). exists (pair_id u q, pair_count u q es).
      split; [by apply match_stage_pair | ].
      unfold lead_of. simpl. by rewrite Hu.
Qed.

Lemma pair_count_positive u q es :
  1 ≤ pair_count u q es → ∃ e, e ∈ es ∧ get e "user_id" = u.
Proof.
  unfold pair_count. induction es as [ | e es IH ]; simpl; [lia | ].
  destruct (value_eqb (get e "user_id") u) eqn:E; simpl.
  - intros _. exists e. split; [apply elem_of_cons; by left | by apply value_eqb_eq].
  - intros H. destruct (IH H) as (e' & He' & E'). exists e'.
    split; [apply elem_of_cons; by right | done].
Qed.

Example example_leads :
  suggestions (aggregate example_engagements) = Ok [lead (VStr "A") (VStr "Q1") 2].
Proof. reflexivity. Qed.

(** On records as [log_engagement] stores them (both fields of the key
    stored, the user null or truthy), the pipeline and the comprehension
    after it give one lead {user, question, count} for exactly the pairs
    with count >= 2 and a non-null user_id. *)
Lemma pipeline_leads_logged (es : list doc)
    (Hlog : Forall (λ e, logged_shape e = true) es) :
  ∃ leads, suggestions (aggregate es) = Ok leads ∧ NoDup leads ∧
           (∀ l, l ∈ leads → ∃ u q n, l = lead u q n) ∧
           ∀ u q n, lead u q n ∈ leads ↔
                    u ≠ VNone ∧ n = pair_count u q es ∧ 2 ≤ n.
Proof.
  assert (Forall (λ e, has_pair e = true) es) as Hp.
  { eapply Forall_impl; [exact Hlog | ]. intros e He. simpl in He.
    unfold logged_shape in He. by apply andb_true_iff in He as [? _]. }
  destruct (premium_leads_truthy es Hp) as (leads & Hrun & Hnd & Hform & Hin).
  exists leads. split; [done | split; [done | split; [done | ] ] ].
  intros u q n. rewrite Hin. split.
  - intros (Hu & Hn & H2). split; [ | done ]. intros ->. discriminate.
  - intros (Hu & -> & H2). split; [ | done ].
    destruct (pair_count_positive u q es) as (e & He & <-); [lia | ].
    rewrite Forall_forall in Hlog. pose proof (Hlog e He) as Hs.
    unfold logged_shape in Hs. apply andb_true_iff in Hs as [_ Hs].
    destruct (get e "user_id"); done.
Qed.

(** ** The session gate *)

(** The guard of [admin_required]: without a truthy [admin_logged_in] in the
    session the wrapped view is not called. *)
Lemma admin_required_gate (fn : handler) req st :
  truthy (get (session st) "admin_logged_in") = false →
  admin_required fn req st = (st, Resp unauthorized).
Proof. intros H. unfold admin_required. by rewrite H. Qed.

Lemma admin_required_pass (fn : handler) req st :
  truthy (get (session st) "admin_logged_in") = true →
  admin_required fn req st = fn req st.
Proof. intros H. unfold admin_required. by rewrite H. Qed.

(** C6. While the session is not that of a logged-in admin, each admin-only
    operation (insights, engagement listing, export, service list and
    upsert, service delete, logout) answers [{"error": "unauthorized"}] with
    status 401 and leaves the session and the three collections as they
    were; in particular every service record is still stored after an
    unauthenticated delete. *)
Theorem admin_routes_unauthorized
    (py_repr : value → string)
    (sort_desc : string → Mongo.collection → Mongo.collection) (oid_str : N → string)
    (req : request) (st : state)
    (Hanon : truthy (get (session st) "admin_logged_in") = false) :
  unauthorized = Json (VDict [("error", VStr "unauthorized")]) 401 ∧
  admin_insights req st = (st, Resp unauthorized) ∧
  admin_engagements sort_desc oid_str req st = (st, Resp unauthorized) ∧
  export_csv py_repr req st = (st, Resp unauthorized) ∧
  admin_services req st = (st, Resp unauthorized) ∧
  delete_service req st = (st, Resp unauthorized) ∧
  admin_logout req st = (st, Resp unauthorized) ∧
  services_col (delete_service req st).1 = services_col st.
Proof.
  unfold admin_insights, admin_engagements, export_csv, admin_services,
    delete_service, admin_logout.
  rewrite !admin_required_gate by exact Hanon.
  repeat split; reflexivity.
Qed.

Lemma admin_routes_unauthorized_witness :
  truthy (get (session anonymous_state) "admin_logged_in") = false ∧
  delete_service delete_s1 anonymous_state = (anonymous_state, Resp unauthorized) ∧
  services_col (delete_service delete_s1 anonymous_state).1 = [service_s1].
Proof.
  split; [reflexivity | ].
  pose proof (admin_routes_unauthorized (λ _, EmptyString)
                (λ _ c, c) (λ _, EmptyString) delete_s1 anonymous_state eq_refl) as H.
  split; [apply H | apply H].
Defined.

(** With an admin session the same delete removes the record. *)
Example delete_when_logged_in :
  services_col (delete_service delete_s1 admin_state).1 = [].
Proof. reflexivity. Qed.

(** A successful login opens the session gate; a failed one changes nothing. *)
Lemma login_opens_gate req st st' loc :
  admin_login req st = (st', Resp (Redirect loc)) →
  truthy (get (session st') "admin_logged_in") = true.
Proof.
  unfold admin_login. destruct (method req); try discriminate;
    destruct (Mongo.find_one _ _ _) as [admin | ]; try discriminate;
    destruct (value_eqb _ _); try discriminate;
    intros [= <- _]; simpl; unfold get, setitem;
    rewrite !lookup_set_field; reflexivity.
Qed.

Lemma login_failure_keeps_session req st st' s :
  admin_login req st = (st', Resp (Text s 401)) → st' = st.
Proof.
  unfold admin_login. destruct (method req); try discriminate;
    destruct (Mongo.find_one _ _ _) as [admin | ]; try discriminate;
    try (destruct (value_eqb _ _); try discriminate);
    by intros [= <- _].
Qed.

(** ** Service upsert *)

(** C8. A payload without an [id] field makes the upsert answer
    [{"error": "id required"}] with status 400, whatever its other fields,
    and the state is unchanged. *)
Theorem upsert_requires_id (req : request) (st : state) (payload : doc)
    (Hadmin : truthy (get (session st) "admin_logged_in") = true)
    (Hpost : method req = POST)
    (Hbody : json req = VDict payload)
    (Hid : lookup_field payload "id" = None) :
  id_required = Json (VDict [("error", VStr "id required")]) 400 ∧
  admin_services req st = (st, Resp id_required).
Proof.
  split; [reflexivity | ].
  unfold admin_services. rewrite admin_required_pass by exact Hadmin.
  rewrite Hpost, Hbody. simpl. unfold get. rewrite Hid. reflexivity.
Qed.

Lemma upsert_requires_id_witness :
  truthy (get (session admin_state) "admin_logged_in") = true ∧
  method post_without_id = POST ∧
  admin_services post_without_id admin_state = (admin_state, Resp id_required).
Proof.
  split; [reflexivity | split; [reflexivity | ] ].
  apply (upsert_requires_id post_without_id admin_state
           [("name", VStr "Passport"); ("category", VStr "Travel")]);
    reflexivity.
Defined.

(** A falsy [id] (null, empty, zero) is refused in the same way. *)
Lemma upsert_refuses_falsy_id (req : request) (st : state) (payload : doc) :
  truthy (get (session st) "admin_logged_in") = true →
  method req = POST → json req = VDict payload →
  truthy (get payload "id") = false →
  admin_services req st = (st, Resp id_required).
Proof.
  intros Hadmin Hpost Hbody Hid.
  unfold admin_services. rewrite admin_required_pass by exact Hadmin.
  rewrite Hpost, Hbody. simpl. by rewrite Hid.
Qed.

(** C4 (as stated) fails: the stored record of "s1" has a description; an
    upsert whose payload has no description leaves it in the record
    ([update_one] with [$set]), so the prior record is not replaced by the
    supplied one. *)
Lemma upsert_keeps_old_fields :
  lookup_field [("id", VStr "s1"); ("name", VStr "New")] "description" = None ∧
  ∃ st', admin_services post_rename_s1 admin_state = (st', Resp (status "ok")) ∧
         Mongo.find (services_col st') =
         [[("id", VStr "s1"); ("name", VStr "New"); ("description", VStr "D")]].
Proof.
  split; [reflexivity | ]. eexists. split; reflexivity.
Qed.

(** C4 (amended). For a payload with a truthy [id] that the store takes as
    plain data (its field names are distinct, not empty, without dot, NUL or
    leading [$], none is [_id], and its integers fit in 64 bits), the upsert
    answers [{"status": "ok"}] and sets each field of the payload on the
    first stored record whose [id] matches, keeping every field of that
    record that the payload does not supply (a patch, not a replacement);
    when no record matches, it inserts a record with exactly the payload's
    fields. No other record and no other part of the state changes. *)
Theorem upsert_sets_fields (req : request) (st : state) (payload : doc)
    (Hadmin : truthy (get (session st) "admin_logged_in") = true)
    (Hpost : method req = POST)
    (Hbody : json req = VDict payload)
    (Hid : truthy (get payload "id") = true)
    (Hkeys : NoDup (map fst payload))
    (Hstore : storable_update (get payload "id") payload = true) :
  ∃ st', admin_services req st = (st', Resp (status "ok")) ∧
    session st' = session st ∧ eng_col st' = eng_col st ∧
    admins_col st' = admins_col st ∧
    ((∃ pre s post body',
        services_col st = pre ++ s :: post ∧
        Forall (λ x, Mongo.matches "id" (get payload "id") (Mongo.body x) = false) pre ∧
        Mongo.matches "id" (get payload "id") (Mongo.body s) = true ∧
        services_col st' =
          pre ++ {| Mongo.oid := Mongo.oid s; Mongo.body := body' |} :: post ∧
        ∀ k, lookup_field body' k =
             match lookup_field payload k with
             | Some v => Some (Mongo.decoded v)
             | None => lookup_field (Mongo.body s) k
             end) ∨
     (Forall (λ x, Mongo.matches "id" (get payload "id") (Mongo.body x) = false)
             (services_col st) ∧
      ∃ body',
        services_col st' =
          services_col st ++ [{| Mongo.oid := next_oid st; Mongo.body := body' |}] ∧
        ∀ k, lookup_field body' k = Mongo.decoded <$> lookup_field payload k)).
Proof.
  unfold admin_services. rewrite admin_required_pass by exact Hadmin.
  rewrite Hpost, Hbody. simpl. rewrite Hid. simpl.
  unfold storable_update in Hstore.
  apply andb_true_iff in Hstore as [Hstore He2].
  apply andb_true_iff in Hstore as [Hstore He1].
  apply andb_true_iff in Hstore as [Hstore Hnoid].
  apply andb_true_iff in Hstore as [Hp1 Hp2].
  unfold Mongo.update_one_upsert. rewrite Hp1, Hp2, Hnoid, He1, He2. simpl.
  assert (NoDup (map fst (Mongo.decoded_doc payload))) as Hkeys'
    by by rewrite decoded_doc_keys.
  destruct (Mongo.update_first _ _ (services_col st)) as [c' | ] eqn:Hup.
  - eexists. split; [reflexivity | ]. simpl. repeat split.
    left. apply update_first_Some in Hup as (pre & s & post & Hc & Hpre & Hs & ->).
    exists pre, s, post, (Mongo.set_fields (Mongo.body s) (Mongo.decoded_doc payload)).
    repeat split; try done.
    intros k. rewrite lookup_set_fields, lookup_decoded_doc by done.
    destruct (lookup_field payload k); reflexivity.
  - eexists. split; [reflexivity | ]. simpl. repeat split.
    right. apply update_first_None in Hup. split; [exact Hup | ].
    eexists. split; [reflexivity | ].
    intros k. rewrite lookup_set_fields, lookup_decoded_doc by done.
    destruct (lookup_field payload k) as [v | ] eqn:Hk; [reflexivity | ].
    apply (lookup_field_None [("id", Mongo.decoded (get payload "id"))] k).
    change (k ∉ ["id"]). rewrite list_elem_of_singleton. intros ->.
    unfold get in Hid. rewrite Hk in Hid. discriminate.
Qed.

Lemma upsert_sets_fields_witness :
  truthy (get (session admin_state) "admin_logged_in") = true ∧
  storable_update (VStr "s1") [("id", VStr "s1"); ("name", VStr "New")] = true ∧
  ∃ st', admin_services post_rename_s1 admin_state = (st', Resp (status "ok")) ∧
         session st' = session admin_state.
Proof.
  split; [reflexivity | split; [reflexivity | ] ].
  destruct (upsert_sets_fields post_rename_s1 admin_state
              [("id", VStr "s1"); ("name", VStr "New")]
              eq_refl eq_refl eq_refl eq_refl) as (st' & Hrun & Hs & _).
  - apply NoDup_cons. split; [ | apply NoDup_singleton ].
    rewrite list_elem_of_singleton. discriminate.
  - reflexivity.
  - exists st'. split; [exact Hrun | exact Hs].
Defined.

(** ** Logging an engagement *)

(** C5. The specification has a malformed age treated as absent: stored as
    null, never rejected, the answer [{"status": "ok"}]. The code does not
    do so: a body whose age is not numeric makes [int] raise [ValueError]
    inside [log_engagement], the request fails and nothing is inserted. *)
Theorem log_engagement_malformed_age (st : state) (m : http_method)
    (f : list (string * string)) (sid : string) (now : datetime) :
  log_engagement {| method := m; json := VDict [("age", VStr "abc")]; form := f;
                    service_id := sid; utcnow := now |} st
  = (st, Crash ValueError).
Proof. reflexivity. Qed.

(** A non-numeric age of a stored record is skipped by the insights. *)
Example insights_skip_malformed_age :
  age_loop [[("age", VStr "abc")]] = age_groups_init.
Proof. reflexivity. Qed.

Lemma truthy_decoded v : truthy (Mongo.decoded v) = truthy v.
Proof. destruct v as [ | | | | | [ | ? ?] | [ | ? ?] ]; reflexivity. Qed.

Lemma engagement_doc_dict p now :
  engagement_doc (VDict p) now =
  (age ← (if truthy (get p "age") then n ← py_int (get p "age"); mret (VInt n)
          else mret VNone);
   mret [("user_id", py_or (get p "user_id") VNone);
         ("age", age);
         ("job", get p "job");
         ("desires", py_or (get p "desires") (VList []));
         ("question_clicked", get p "question_clicked");
         ("service", get p "service");
         ("timestamp", VDate now)]).
Proof.
  unfold engagement_doc. simpl.
  destruct (truthy (get p "age")); simpl; [ | reflexivity ].
  destruct (py_int (get p "age")); reflexivity.
Qed.

Lemma engagement_doc_fields p now d :
  engagement_doc (VDict p) now = Ok d →
  ∃ age, d = logged_fields p age now ∧
         ((truthy (get p "age") = false ∧ age = VNone) ∨
          (truthy (get p "age") = true ∧ ∃ n, py_int (get p "age") = Ok n ∧ age = VInt n)).
Proof.
  rewrite engagement_doc_dict.
  destruct (truthy (get p "age")); simpl.
  - destruct (py_int (get p "age")) as [n | ]; simpl; [ | discriminate ].
    intros [= <-]. exists (VInt n). split; [reflexivity | right; eauto].
  - intros [= <-]. exists VNone. split; [reflexivity | left; eauto].
Qed.

(** A request that is answered has appended one record to the collection. *)
Lemma log_engagement_inserts req st st' r :
  log_engagement req st = (st', Resp r) →
  r = status "ok" ∧
  ∃ payload d,
    py_or (json req) (VDict []) = VDict payload ∧
    engagement_doc (VDict payload) (utcnow req) = Ok d ∧
    st' = with_engagements st
            (eng_col st ++ [{| Mongo.oid := next_oid st; Mongo.body := Mongo.decoded_doc d |}])
            (N.succ (next_oid st)).
Proof.
  unfold log_engagement.
  destruct (py_or (json req) (VDict [])) as [ | | | | | | payload ] eqn:Hp;
    try (simpl; discriminate).
  destruct (engagement_doc (VDict payload) (utcnow req)) as [d | ] eqn:Hd;
    [ | discriminate ].
  unfold Mongo.insert_one.
  destruct (negb (Mongo.plain _)); [discriminate | ].
  destruct (negb (Mongo.encodable _)); [discriminate | ].
  intros [= <- <-]. split; [reflexivity | ]. by exists payload, d.
Qed.

(** A request that fails leaves the state as it was. *)
Lemma log_engagement_failure req st :
  (∃ r, (log_engagement req st).2 = Resp r) ∨ (log_engagement req st).1 = st.
Proof.
  unfold log_engagement.
  destruct (engagement_doc _ _) as [d | ]; [ | by right ].
  destruct (Mongo.insert_one _ _ _) as [[c n] | | ]; simpl; eauto.
Qed.

Lemma logged_fields_shape p age now :
  logged_shape (Mongo.decoded_doc (logged_fields p age now)) = true.
Proof.
  unfold logged_shape. apply andb_true_iff. split; [reflexivity | ].
  change (match Mongo.decoded (py_or (get p "user_id") VNone) with
          | VNone => true
          | u => truthy u
          end = true).
  unfold py_or. destruct (truthy (get p "user_id")) eqn:Hu; [ | reflexivity ].
  rewrite <- truthy_decoded in Hu.
  destruct (Mongo.decoded (get p "user_id")); done.
Qed.

(** Every record of the collection keeps the shape [log_engagement] gives
    it: no other view writes to the collection. *)
Lemma log_engagement_keeps_shape req st :
  Forall (λ e, logged_shape e = true) (Mongo.find (eng_col st)) →
  Forall (λ e, logged_shape e = true) (Mongo.find (eng_col (log_engagement req st).1)).
Proof.
  intros Hst. destruct (log_engagement_failure req st) as [[r Hr] | ->]; [ | exact Hst ].
  destruct (log_engagement req st) as [st' res] eqn:Hrun. simpl in Hr. subst res.
  apply log_engagement_inserts in Hrun as (_ & payload & d & _ & Hd & ->).
  apply engagement_doc_fields in Hd as (age & -> & _).
  simpl. unfold Mongo.find. rewrite map_app. apply Forall_app. split; [exact Hst | ].
  apply Forall_singleton. apply logged_fields_shape.
Qed.

(** Every truthy age that [int] does not accept makes the request fail. *)
Lemma log_engagement_uncoercible_age req st p ex :
  py_or (json req) (VDict []) = VDict p →
  truthy (get p "age") = true →
  py_int (get p "age") = Raise ex →
  log_engagement req st = (st, Crash ex).
Proof.
  intros Hp Hage Hint. unfold log_engagement.
  rewrite Hp, engagement_doc_dict, Hage, Hint. reflexivity.
Qed.

(** An age that is absent or falsy is stored as null. *)
Lemma log_engagement_absent_age req st p :
  py_or (json req) (VDict []) = VDict p →
  truthy (get p "age") = false →
  Mongo.plain (VDict (logged_fields p VNone (utcnow req))) = true →
  Mongo.encodable (VDict (logged_fields p VNone (utcnow req))) = true →
  ∃ st' e, log_engagement req st = (st', Resp (status "ok")) ∧
           Mongo.find (eng_col st') = Mongo.find (eng_col st) ++ [e] ∧
           get e "age" = VNone.
Proof.
  intros Hp Hage Hplain Henc. unfold log_engagement.
  rewrite Hp, engagement_doc_dict, Hage. cbn [mbind outcome_bind mret outcome_ret].
  fold (logged_fields p VNone (utcnow req)).
  unfold Mongo.insert_one. rewrite Hplain, Henc. cbn [negb].
  eexists. eexists. split; [reflexivity | ].
  split; [ unfold Mongo.find; simpl; rewrite map_app; reflexivity | reflexivity ].
Qed.

(** C10 (as stated) fails: a payload whose [desires] is a string is stored
    with that string, not with a list ([payload.get("desires") or []]). *)
Lemma logged_desires_not_a_list :
  ∃ st' e,
    log_engagement (post_engagement (VDict [("desires", VStr "housing")])) empty_state
      = (st', Resp (status "ok")) ∧
    Mongo.find (eng_col st') = [e] ∧
    get e "desires" = VStr "housing" ∧
    ∀ l, get e "desires" ≠ VList l.
Proof.
  eexists. eexists. split; [reflexivity | split; [reflexivity | split ] ].
  - reflexivity.
  - intros l. discriminate.
Qed.

(** C10 (amended). Every record that [log_engagement] inserts is appended to
    the engagement collection and has: the insertion time as its timestamp
    (to the millisecond, as the store keeps dates), never null; as desires
    the payload's value when that is truthy - a list whenever the payload
    gave a list - and the empty list when it is absent or falsy; a null
    user_id when the payload's user_id is absent, the empty string or
    otherwise falsy. A record stored with a null user_id is never the
    subject of a premium lead. *)
Theorem logged_record_shape (req : request) (st st' : state) (r : response)
    (Hrun : log_engagement req st = (st', Resp r)) :
  r = status "ok" ∧
  ∃ payload e,
    py_or (json req) (VDict []) = VDict payload ∧
    Mongo.find (eng_col st') = Mongo.find (eng_col st) ++ [e] ∧
    get e "timestamp" = VDate (Mongo.to_millis (utcnow req)) ∧
    get e "timestamp" ≠ VNone ∧
    get e "desires" = (if truthy (get payload "desires")
                       then Mongo.decoded (get payload "desires")
                       else VList []) ∧
    (∀ l, get payload "desires" = VList l → ∃ l', get e "desires" = VList l') ∧
    (truthy (get payload "user_id") = false → get e "user_id" = VNone) ∧
    logged_shape e = true ∧
    (get e "user_id" = VNone →
     ∀ es leads, suggestions (aggregate es) = Ok leads →
                 ∀ q n, lead (get e "user_id") q n ∉ leads).
Proof.
  apply log_engagement_inserts in Hrun as (-> & payload & d & Hp & Hd & ->).
  apply engagement_doc_fields in Hd as (age & -> & _).
  split; [reflexivity | ].
  exists payload, (Mongo.decoded_doc (logged_fields payload age (utcnow req))).
  split; [exact Hp | ].
  split; [ unfold Mongo.find; simpl; rewrite map_app; reflexivity | ].
  split; [reflexivity | ]. split; [discriminate | ].
  split; [ | split; [ | split; [ | split ] ] ].
  - change (Mongo.decoded (py_or (get payload "desires") (VList [])) =
            if truthy (get payload "desires") then Mongo.decoded (get payload "desires")
            else VList []).
    unfold py_or. destruct (truthy (get payload "desires")); reflexivity.
  - intros l Hl.
    change (∃ l', Mongo.decoded (py_or (get payload "desires") (VList [])) = VList l').
    unfold py_or. rewrite Hl. destruct l; simpl; eauto.
  - intros Hu.
    change (Mongo.decoded (py_or (get payload "user_id") VNone) = VNone).
    unfold py_or. by rewrite Hu.
  - apply logged_fields_shape.
  - intros -> es leads Hleads q n Hin.
    pose proof (suggestions_truthy (aggregate es) [] leads (Forall_nil_2 _) Hleads) as Ht.
    rewrite Forall_forall in Ht. destruct (Ht _ Hin) as (u & Hu & Htrue).
    injection Hu as <-. discriminate.
Qed.

Lemma logged_record_shape_witness :
  ∃ st', log_engagement (post_engagement (VDict [("user_id", VStr EmptyString)]))
                        empty_state = (st', Resp (status "ok")) ∧
         ∃ e, Mongo.find (eng_col st') = [e] ∧ get e "user_id" = VNone.
Proof.
  eexists. split; [reflexivity | ].
  destruct (logged_record_shape
              (post_engagement (VDict [("user_id", VStr EmptyString)]))
              empty_state _ _ eq_refl)
    as (_ & payload & e & Hp & He & _ & _ & _ & _ & Hu & _).
  exists e. split; [exact He | ].
  apply Hu. injection Hp as <-. reflexivity.
Defined.

(** ** Robustness of the insights *)

Lemma jobs_step_raises acc e ex : jobs_step acc e = Raise ex → ex = AttributeError.
Proof.
  unfold jobs_step.
  destruct (py_or (get e "job") (VStr "Unknown")); simpl;
    first [discriminate | by intros [= <-]].
Qed.

Lemma jobs_fold_raises es : ∀ acc ex,
  foldM jobs_step acc es = Raise ex → ex = AttributeError.
Proof.
  induction es as [ | e es IH ]; intros acc ex; simpl; [discriminate | ].
  destruct (jobs_step acc e) as [acc' | ex'] eqn:E; simpl.
  - apply IH.
  - intros [= <-]. by apply jobs_step_raises in E.
Qed.

(** C3. The specification has the insights complete for every engagement
    set, no single record causing a failure. The code does not do so: one
    stored record whose job is a number makes the insights raise, whatever
    the other records are, since [.strip()] is called on the number in the
    second loop, which has no [try] as the first loop has. *)
Theorem insights_raise_on_numeric_job (before after : list doc) :
  compute_insights (before ++ [("job", VInt 5)] :: after) = Raise AttributeError.
Proof.
  unfold compute_insights.
  assert (jobs_loop (before ++ [("job", VInt 5)] :: after) = Raise AttributeError) as ->;
    [ | reflexivity ].
  unfold jobs_loop. rewrite map_app, foldM_app.
  destruct (foldM jobs_step ∅ (map (Mongo.project ["job"]) before)) as [acc | ex] eqn:E;
    simpl.
  - reflexivity.
  - by apply jobs_fold_raises in E as ->.
Qed.

(** The record is one the public endpoint stores: after it is logged, the
    insights request of an admin fails. *)
Example insights_fail_after_numeric_job :
  ∃ st', log_engagement (post_engagement (VDict [("job", VInt 5)])) admin_state
           = (st', Resp (status "ok")) ∧
         admin_insights (post_engagement VNone) st' = (st', Crash AttributeError).
Proof. eexists. split; reflexivity. Qed.

(** A record whose age cannot be coerced is left out of the age histogram
    and still counted by the job histogram. *)
Example malformed_age_only_affects_ages :
  let es := [[("age", VStr "abc"); ("job", VStr "Nurse")]] in
  age_loop es = age_groups_init ∧
  ∃ h, jobs_loop es = Ok h ∧ h !! "Nurse" = Some 1.
Proof. split; [reflexivity | ]. eexists. split; reflexivity. Qed.

(** ** The CSV export *)

Lemma append_assoc (a b c : string) : (a +:+ b) +:+ c = a +:+ (b +:+ c).
Proof.
  induction a as [ | x a IH ]; [reflexivity | ].
  change (String x ((a +:+ b) +:+ c) = String x (a +:+ (b +:+ c))). by rewrite IH.
Qed.

Lemma append_empty_r (a : string) : a +:+ EmptyString = a.
Proof.
  induction a as [ | x a IH ]; [reflexivity | ].
  change (String x (a +:+ EmptyString) = String x a). by rewrite IH.
Qed.

Section ExportRows.
Variable py_repr : value → string.

Lemma join_fold l : ∀ acc strs,
  strings_of l = Some strs →
  foldM (λ acc x, match x with
                  | VStr s => Ok (acc ++ [s])
                  | _ => Raise TypeError
                  end) acc l = Ok (acc ++ strs).
Proof.
  induction l as [ | x l IH ]; intros acc strs; simpl.
  - intros [= <-]. by rewrite app_nil_r.
  - destruct x; try discriminate.
    destruct (strings_of l) as [strs' | ]; simpl; [ | discriminate ].
    intros [= <-]. rewrite (IH _ strs') by done. by rewrite <- app_assoc.
Qed.

Lemma py_join_desires e ds :
  desire_strings e = Some ds →
  py_join "," (py_or (get e "desires") (VList [])) = Ok (join_strings "," ds).
Proof.
  unfold desire_strings, py_or.
  destruct (get e "desires") as [ | [] | n | [ | c s] | t | l | [ | x d] ];
    simpl; try discriminate; try (by intros [= <-]).
  - destruct (n =? 0)%Z; simpl; [by intros [= <-] | discriminate].
  - intros Hl. destruct l as [ | x l]; [by injection Hl as <- | ].
    unfold py_join. cbn [truthy py_iter mbind outcome_bind].
    by rewrite (join_fold _ [] ds Hl).
Qed.

Lemma timestamp_column e ts :
  timestamp_text e = Some ts →
  (if truthy (get e "timestamp") then py_isoformat (get e "timestamp")
   else mret EmptyString) = Ok ts.
Proof.
  unfold timestamp_text.
  destruct (get e "timestamp") as [ | [] | n | [ | c s] | t | [ | x l] | [ | x d] ];
    simpl; try discriminate; try (by intros [= <-]).
  destruct (n =? 0)%Z; simpl; [by intros [= <-] | discriminate].
Qed.

Lemma export_cells_typed e ds ts :
  desire_strings e = Some ds → timestamp_text e = Some ts →
  export_cells py_repr e = Ok (columns py_repr e ds ts).
Proof.
  intros Hd Ht. unfold export_cells.
  rewrite (py_join_desires e ds Hd). simpl.
  rewrite (timestamp_column e ts Ht). reflexivity.
Qed.

Lemma export_step_typed si e ds ts :
  desire_strings e = Some ds → timestamp_text e = Some ts →
  export_step py_repr si e = Ok (si +:+ writerow (columns py_repr e ds ts)).
Proof.
  intros Hd Ht. unfold export_step. by rewrite (export_cells_typed e ds ts Hd Ht).
Qed.

Lemma export_fold es : ∀ si,
  Forall (λ e, is_Some (desire_strings e) ∧ is_Some (timestamp_text e)) es →
  ∃ rows,
    foldM (export_step py_repr) si es = Ok (si +:+ rows_text rows) ∧
    Forall2 (λ e row, ∃ ds ts, desire_strings e = Some ds ∧
                               timestamp_text e = Some ts ∧
                               row = columns py_repr e ds ts) es rows.
Proof.
  induction es as [ | e es IH ]; intros si Hes.
  - exists []. simpl. rewrite append_empty_r. split; [reflexivity | constructor].
  - apply Forall_cons in Hes as [[[ds Hd] [ts Ht]] Hes].
    destruct (IH (si +:+ writerow (columns py_repr e ds ts)) Hes) as (rows & Hrun & Hrows).
    exists (columns py_repr e ds ts :: rows). split.
    + cbn [foldM]. rewrite (export_step_typed si e ds ts Hd Ht).
      cbn [mbind outcome_bind]. rewrite Hrun. cbn [rows_text foldr].
      by rewrite append_assoc.
    + constructor; [ | exact Hrows ]. eauto.
Qed.
End ExportRows.

(** *** Reading the export back *)

Lemma chars_app (a b : string) :
  list_ascii_of_string (a +:+ b) = list_ascii_of_string a ++ list_ascii_of_string b.
Proof.
  induction a as [ | x a IH ]; [reflexivity | ].
  change (x :: list_ascii_of_string (a +:+ b) =
          x :: (list_ascii_of_string a ++ list_ascii_of_string b)).
  by rewrite IH.
Qed.

Lemma read_chars_app l1 : ∀ r l2,
  read_chars r (l1 ++ l2) =
  match read_chars r l1 with Some r' => read_chars r' l2 | None => None end.
Proof.
  induction l1 as [ | c l1 IH ]; intros r l2; simpl; [reflexivity | ].
  destruct (read_char r c); [apply IH | reflexivity].
Qed.

Lemma special_char_false c :
  special_char c = false →
  Ascii.eqb c ","%char = false ∧ Ascii.eqb c quote_char = false ∧
  Ascii.eqb c cr_char = false ∧ Ascii.eqb c lf_char = false.
Proof. unfold special_char. rewrite !orb_false_iff. tauto. Qed.

Lemma plain_run l : ∀ f rw rs,
  forallb (λ c, negb (special_char c)) l = true →
  read_chars {| mode := InField; field := f; row := rw; rows := rs |} l =
  Some {| mode := InField; field := f ++ l; row := rw; rows := rs |}.
Proof.
  induction l as [ | c l IH ]; intros f rw rs Hl; simpl.
  - by rewrite app_nil_r.
  - simpl in Hl. apply andb_true_iff in Hl as [Hc Hl]. apply negb_true_iff in Hc.
    destruct (special_char_false c Hc) as (H1 & H2 & H3 & H4).
    unfold read_char. simpl. rewrite H1, H3, H4. rewrite IH by done.
    by rewrite <- app_assoc.
Qed.

Lemma plain_start m c l rw rs :
  start_mode m →
  forallb (λ c, negb (special_char c)) (c :: l) = true →
  read_chars {| mode := m; field := []; row := rw; rows := rs |} (c :: l) =
  Some {| mode := InField; field := c :: l; row := rw; rows := rs |}.
Proof.
  intros Hm Hl. simpl in Hl. apply andb_true_iff in Hl as [Hc Hl].
  apply negb_true_iff in Hc.
  destruct (special_char_false c Hc) as (H1 & H2 & H3 & H4).
  simpl. unfold read_char. simpl.
  destruct Hm as [-> | ->]; rewrite H1, H2, H3, H4; by rewrite plain_run.
Qed.

Lemma quoted_run s : ∀ f rw rs,
  read_chars {| mode := InQuoted; field := f; row := rw; rows := rs |}
             (list_ascii_of_string (double_quotes s) ++ [quote_char]) =
  Some {| mode := QuoteSeen; field := f ++ list_ascii_of_string s; row := rw; rows := rs |}.
Proof.
  induction s as [ | c s IH ]; intros f rw rs.
  - simpl. by rewrite app_nil_r.
  - cbn [double_quotes]. destruct (Ascii.eqb c quote_char) eqn:E.
    + apply Ascii.eqb_eq in E as ->.
      change (read_chars {| mode := InQuoted; field := f ++ [quote_char];
                            row := rw; rows := rs |}
                (list_ascii_of_string (double_quotes s) ++ [quote_char]) =
              Some {| mode := QuoteSeen;
                      field := f ++ quote_char :: list_ascii_of_string s;
                      row := rw; rows := rs |}).
      rewrite IH. by rewrite <- app_assoc.
    + change (match read_char {| mode := InQuoted; field := f; row := rw; rows := rs |} c with
              | Some r' => read_chars r' (list_ascii_of_string (double_quotes s) ++ [quote_char])
              | None => None
              end =
              Some {| mode := QuoteSeen; field := f ++ c :: list_ascii_of_string s;
                      row := rw; rows := rs |}).
      unfold read_char. cbn [mode field row rows]. rewrite E.
      rewrite IH. by rewrite <- app_assoc.
Qed.

Lemma existsb_false_forallb {A} (p : A → bool) l :
  existsb p l = false → forallb (λ x, negb (p x)) l = true.
Proof.
  induction l as [ | x l IH ]; simpl; [done | ].
  intros H. apply orb_false_iff in H as [Hx Hl]. rewrite Hx. simpl. by apply IH.
Qed.

Lemma field_run m s rw rs :
  start_mode m →
  read_chars {| mode := m; field := []; row := rw; rows := rs |}
             (list_ascii_of_string (csv_field s)) =
  Some {| mode := mode_after m s; field := list_ascii_of_string s; row := rw; rows := rs |}.
Proof.
  intros Hm. unfold csv_field, mode_after. destruct (needs_quotes s) eqn:Hq.
  - rewrite !chars_app. change (list_ascii_of_string quote) with [quote_char].
    destruct Hm as [-> | ->]; apply (quoted_run s []).
  - destruct s as [ | c s ]; [reflexivity | ].
    apply (plain_start m c (list_ascii_of_string s)); [done | ].
    by apply (existsb_false_forallb special_char (c :: list_ascii_of_string s)).
Qed.

Lemma comma_after m s rw rs :
  start_mode m →
  read_char {| mode := mode_after m s; field := list_ascii_of_string s;
               row := rw; rows := rs |} ","%char =
  Some {| mode := StartField; field := []; row := rw ++ [s]; rows := rs |}.
Proof.
  intros Hm. unfold mode_after, read_char, end_field. cbn [mode field row rows].
  rewrite string_of_list_ascii_of_string.
  destruct (needs_quotes s); [reflexivity | ].
  destruct s; [ | reflexivity ]. destruct Hm as [-> | ->]; reflexivity.
Qed.

Lemma cr_after m s rw rs :
  start_mode m → (m = StartRow → s ≠ EmptyString) →
  read_chars {| mode := mode_after m s; field := list_ascii_of_string s;
                row := rw; rows := rs |} [cr_char; lf_char] =
  Some {| mode := StartRow; field := []; row := []; rows := rs ++ [rw ++ [s]] |}.
Proof.
  intros Hm Hs. unfold mode_after, read_chars, read_char, end_field.
  cbn [mode field row rows]. rewrite string_of_list_ascii_of_string.
  destruct (needs_quotes s); [reflexivity | ].
  destruct s; [ | reflexivity ].
  destruct Hm as [-> | ->]; [ | reflexivity ]. by destruct Hs.
Qed.

Lemma fields_run cells : ∀ m rw rs,
  start_mode m → cells ≠ [] → (m = StartRow → cells ≠ [EmptyString]) →
  read_chars {| mode := m; field := []; row := rw; rows := rs |}
             (list_ascii_of_string (join_strings "," (map csv_field cells) +:+ crlf)) =
  Some {| mode := StartRow; field := []; row := []; rows := rs ++ [rw ++ cells] |}.
Proof.
  induction cells as [ | s cells IH ]; intros m rw rs Hm Hne Hrow; [done | ].
  destruct cells as [ | s' cells ].
  - cbn [map join_strings]. rewrite chars_app, read_chars_app, field_run by done.
    apply cr_after; [done | ]. intros -> ->. by apply Hrow.
  - change (join_strings "," (map csv_field (s :: s' :: cells)))
      with (csv_field s +:+ "," +:+ join_strings "," (map csv_field (s' :: cells))).
    rewrite !append_assoc, chars_app, read_chars_app, field_run by done.
    rewrite chars_app. change (list_ascii_of_string ",") with [","%char].
    cbn [app read_chars]. rewrite comma_after by done.
    rewrite IH; [ | by right | done | by intros [=] ].
    by rewrite <- app_assoc.
Qed.

Lemma row_run cells rs :
  read_chars {| mode := StartRow; field := []; row := []; rows := rs |}
             (list_ascii_of_string (writerow cells)) =
  Some {| mode := StartRow; field := []; row := []; rows := rs ++ [cells] |}.
Proof.
  destruct cells as [ | s cells ]; [reflexivity | ].
  destruct s as [ | c s ].
  - destruct cells as [ | s' cells ]; [reflexivity | ].
    apply (fields_run (EmptyString :: s' :: cells) StartRow [] rs);
      [by left | done | by intros _ [=] ].
  - assert (writerow (String c s :: cells) =
            join_strings "," (map csv_field (String c s :: cells)) +:+ crlf) as ->.
    { unfold writerow. by destruct cells. }
    apply (fields_run (String c s :: cells) StartRow [] rs);
      [by left | done | by intros _ [=] ].
Qed.

(** Reading back what [csv.writer] wrote gives the rows that were written. *)
Lemma read_rows_text rows : read_csv (rows_text rows) = Some rows.
Proof.
  unfold read_csv.
  assert (∀ rs, read_chars {| mode := StartRow; field := []; row := []; rows := rs |}
                  (list_ascii_of_string (rows_text rows)) =
                Some {| mode := StartRow; field := []; row := []; rows := rs ++ rows |}) as H.
  { induction rows as [ | cells rows IH ]; intros rs.
    - simpl. by rewrite app_nil_r.
    - cbn [rows_text foldr]. rewrite chars_app, read_chars_app, row_run.
      fold (rows_text rows). rewrite IH. by rewrite <- app_assoc. }
  by rewrite H.
Qed.

(** The export of two records: the desires ["a", "b"] give the quoted field
    "a,b", the missing timestamp gives an empty field. *)
Example export_example :
  export_text (λ _, EmptyString) [visit; bare_visit] =
  Ok ("user_id,age,job,desire,question,service,timestamp" +:+ crlf +:+
      "u1,34,Nurse," +:+ quote +:+ "a,b" +:+ quote +:+
      ",Q1,passport,2024-05-17T12:00:00.250000" +:+ crlf +:+
      ",,,,,," +:+ crlf).
Proof. reflexivity. Qed.

(** X18. For engagement records whose desires are a sequence of strings (or
    absent) and whose timestamp is a datetime (or absent), the loop of the
    export writes into its buffer, before [send_file] is called,
    the header and then one row per record, in order, with the columns
    user_id, age, job, desire, question, service, timestamp; the desire
    column is the desires joined by commas (["a", "b"] gives "a,b"), the
    timestamp column is the ISO 8601 text of the timestamp, or the empty
    string when there is none. Reading the text back as CSV gives the header
    and these rows, column by column. *)
Theorem export_rows (py_repr : value → string) (es : list doc)
    (Htyped : Forall (λ e, is_Some (desire_strings e) ∧ is_Some (timestamp_text e)) es) :
  export_header = ["user_id"; "age"; "job"; "desire"; "question"; "service"; "timestamp"] ∧
  (∃ text rows,
     export_text py_repr es = Ok text ∧
     text = rows_text (export_header :: rows) ∧
     read_csv text = Some (export_header :: rows) ∧
     Forall2 (λ e row, ∃ ds ts, desire_strings e = Some ds ∧
                                timestamp_text e = Some ts ∧
                                row = columns py_repr e ds ts) es rows) ∧
  (∀ e, get e "desires" = VList [VStr "a"; VStr "b"] →
        ∃ ds, desire_strings e = Some ds ∧ join_strings "," ds = "a,b") ∧
  (∀ e, get e "timestamp" = VNone → timestamp_text e = Some EmptyString) ∧
  (∀ e t, get e "timestamp" = VDate t → timestamp_text e = Some (isoformat t)).
Proof.
  split; [reflexivity | split; [ | split; [ | split ] ] ].
  - destruct (export_fold py_repr es (writerow export_header) Htyped)
      as (rows & Hrun & Hrows).
    exists (rows_text (export_header :: rows)), rows.
    split; [exact Hrun | split; [reflexivity | split; [apply read_rows_text | exact Hrows] ] ].
  - intros e He. unfold desire_strings. rewrite He. eexists. split; reflexivity.
  - intros e He. unfold timestamp_text. by rewrite He.
  - intros e t He. unfold timestamp_text. by rewrite He.
Qed.

Lemma export_rows_witness :
  Forall (λ e, is_Some (desire_strings e) ∧ is_Some (timestamp_text e))
         [visit; bare_visit] ∧
  ∃ text rows, export_text (λ _, EmptyString) [visit; bare_visit] = Ok text ∧
               read_csv text = Some (export_header :: rows) ∧
               length rows = 2.
Proof.
  assert (Forall (λ e, is_Some (desire_strings e) ∧ is_Some (timestamp_text e))
                 [visit; bare_visit]) as Htyped.
  { repeat constructor; eexists; reflexivity. }
  split; [exact Htyped | ].
  destruct (export_rows (λ _, EmptyString) [visit; bare_visit] Htyped)
    as (_ & (text & rows & Hrun & _ & Hread & Hrows) & _).
  exists text, rows. split; [exact Hrun | split; [exact Hread | ] ].
  apply Forall2_length in Hrows. by rewrite <- Hrows.
Defined.

(** ** What the insights tolerate *)

Lemma py_or_text v d : text_or_falsy v = true → ∃ s, py_or v (VStr d) = VStr s.
Proof.
  unfold py_or. destruct v as [ | [] | n | [ | c s] | t | [ | x l] | [ | x d'] ];
    simpl; try discriminate; eauto.
  destruct (n =? 0)%Z; simpl; [eauto | discriminate].
Qed.

Lemma count_strings l : ∀ c strs,
  strings_of l = Some strs → ∃ c', foldM count_key c l = Ok c'.
Proof.
  induction l as [ | x l IH ]; intros c strs; simpl; [eauto | ].
  destruct x; try discriminate.
  destruct (strings_of l) as [strs' | ] eqn:E; simpl; [ | discriminate ].
  intros _. unfold count_key at 1. simpl. eapply IH. reflexivity.
Qed.

Lemma desires_iter e :
  (match desire_strings e with Some _ => true | None => false end) = true →
  ∃ l strs, py_iter (py_or (get e "desires") (VList [])) = Ok l ∧
            strings_of l = Some strs.
Proof.
  unfold desire_strings, py_or.
  destruct (get e "desires") as [ | [] | n | [ | c s] | t | l | [ | x d] ];
    simpl; try discriminate; try (by exists [], []).
  - destruct (n =? 0)%Z; simpl; [by exists [], [] | discriminate].
  - destruct (strings_of l) as [strs | ] eqn:E; [ | discriminate ].
    intros _. destruct l as [ | x l ]; simpl; [by exists [], [] | ].
    exists (x :: l), strs. done.
Qed.

Lemma counts_step_typed acc e :
  typed_engagement e = true →
  ∃ acc', counts_step acc
            (Mongo.project ["service"; "question_clicked"; "desires"] e) = Ok acc'.
Proof.
  unfold typed_engagement. rewrite !andb_true_iff.
  intros [[[[_ Hs] Hq] Hd] _].
  destruct acc as [[services questions] desires]. unfold counts_step.
  rewrite !get_project by reflexivity.
  destruct (py_or_text _ "Unknown" Hs) as [s ->].
  destruct (py_or_text _ "Unknown" Hq) as [q ->].
  destruct (desires_iter e Hd) as (l & strs & -> & Hl).
  destruct (count_strings l desires strs Hl) as [c' Hc'].
  change (count_key services (VStr s)) with (Ok (bump (VStr s) services)).
  change (count_key questions (VStr q)) with (Ok (bump (VStr q) questions)).
  cbn [mbind outcome_bind]. rewrite Hc'.
  cbn [mbind outcome_bind mret outcome_ret]. eauto.
Qed.

Lemma counts_fold_typed es : ∀ acc,
  Forall (λ e, typed_engagement e = true) es →
  ∃ acc', foldM counts_step acc
            (map (Mongo.project ["service"; "question_clicked"; "desires"]) es) = Ok acc'.
Proof.
  induction es as [ | e es IH ]; intros acc Hes; [simpl; eauto | ].
  apply Forall_cons in Hes as [He Hes].
  destruct (counts_step_typed acc e He) as [acc' Hacc].
  cbn [map foldM]. rewrite Hacc. cbn [mbind outcome_bind]. by apply IH.
Qed.

(** On records that follow the data model the insights complete, whatever
    the ages are: a record whose age is missing or cannot be coerced is left
    out of the age histogram and counted by the other histograms. *)
Lemma insights_complete_on_typed (es : list doc) :
  Forall (λ e, typed_engagement e = true) es →
  ∃ r, compute_insights es = Ok r ∧
       age_groups r = age_loop es ∧
       total (jobs r) = length es.
Proof.
  intros Hes. unfold compute_insights.
  assert (Forall (λ e, job_is_text e = true) (map (Mongo.project ["job"]) es)) as Hjobs.
  { apply Forall_map. eapply Forall_impl; [exact Hes | ].
    intros e He. simpl. rewrite job_is_text_project.
    unfold typed_engagement in He. rewrite !andb_true_iff in He. tauto. }
  destruct (jobs_fold _ ∅ Hjobs) as (h & Hh & _ & Htot).
  unfold jobs_loop. rewrite Hh. cbn [mbind outcome_bind].
  destruct (counts_fold_typed es ([], [], []) Hes) as [[[s q] d] Hc].
  unfold counts_loop. rewrite Hc. cbn [mbind outcome_bind].
  destruct (premium_leads_truthy es) as (leads & Hl & _).
  { eapply Forall_impl; [exact Hes | ]. intros e He. simpl.
    unfold typed_engagement in He. rewrite !andb_true_iff in He. tauto. }
  rewrite Hl. cbn [mbind outcome_bind mret outcome_ret].
  eexists. split; [reflexivity | ]. simpl. split; [reflexivity | ].
  rewrite Htot, length_map. unfold total. by rewrite map_fold_empty.
Qed.

(** ** The service, question and desire histograms *)

Lemma key_eqb_str k a : key_eqb k (VStr a) = true ↔ k = VStr a.
Proof.
  destruct k; simpl; try (split; [discriminate | intros [=]]).
  rewrite String.eqb_eq. split; congruence.
Qed.

Lemma counter_get_bump c a b :
  counter_get (bump (VStr a) c) (VStr b) =
  (if String.eqb a b then 1 else 0) + counter_get c (VStr b).
Proof.
  induction c as [ | [k n] c IH ]; cbn [bump counter_get].
  - change (key_eqb (VStr a) (VStr b)) with (String.eqb a b).
    destruct (String.eqb a b); reflexivity.
  - destruct (key_eqb k (VStr a)) eqn:Ea; cbn [counter_get].
    + apply key_eqb_str in Ea as ->.
      change (key_eqb (VStr a) (VStr b)) with (String.eqb a b).
      destruct (String.eqb a b); reflexivity.
    + rewrite IH. destruct (key_eqb k (VStr b)) eqn:Eb; [ | reflexivity ].
      apply key_eqb_str in Eb as ->.
      destruct (String.eqb_spec a b) as [-> | _]; [ | reflexivity ].
      change (key_eqb (VStr b) (VStr b)) with (String.eqb b b) in Ea.
      by rewrite String.eqb_refl in Ea.
Qed.

Lemma py_or_label v : text_or_falsy v = true → py_or v (VStr "Unknown") = VStr (label_of v).
Proof.
  unfold py_or, label_of.
  destruct v as [ | [] | n | [ | c s] | t | [ | x l] | [ | x d'] ];
    simpl; try discriminate; try reflexivity.
  destruct (n =? 0)%Z; simpl; [reflexivity | discriminate].
Qed.

Lemma desires_items e strs :
  desire_strings e = Some strs →
  ∃ l, py_iter (py_or (get e "desires") (VList [])) = Ok l ∧ strings_of l = Some strs.
Proof.
  unfold desire_strings, py_or.
  destruct (get e "desires") as [ | [] | n | [ | c s] | t | l | [ | x d] ];
    simpl; try discriminate; try (intros [= <-]; by exists []).
  - destruct (n =? 0)%Z; simpl; [intros [= <-]; by exists [] | discriminate].
  - intros Hl. destruct l as [ | x l ]; simpl.
    + exists []. done.
    + exists (x :: l). done.
Qed.

Lemma count_fold l : ∀ c strs,
  strings_of l = Some strs →
  ∃ c', foldM count_key c l = Ok c' ∧
        ∀ x, counter_get c' (VStr x) = counter_get c (VStr x) + count_str x strs.
Proof.
  induction l as [ | v l IH ]; intros c strs; cbn [strings_of foldM].
  - intros [= <-]. exists c. split; [reflexivity | ]. intros x. unfold count_str. simpl. lia.
  - destruct v; try discriminate.
    destruct (strings_of l) as [strs' | ] eqn:E; [ | discriminate ].
    intros [= <-].
    change (count_key c (VStr s)) with (Ok (bump (VStr s) c)). cbn [mbind outcome_bind].
    destruct (IH (bump (VStr s) c) strs' eq_refl) as (c' & Hc' & Hget).
    exists c'. split; [exact Hc' | ]. intros x. rewrite Hget, counter_get_bump.
    unfold count_str. rewrite length_filter_cons.
    rewrite (String.eqb_sym x s). destruct (String.eqb s x); lia.
Qed.

Lemma bump_sum k c : sum_list (map snd (bump k c)) = S (sum_list (map snd c)).
Proof.
  induction c as [ | [k' n] c IH ]; cbn [bump]; [reflexivity | ].
  destruct (key_eqb k' k).
  - simpl. lia.
  - change (n + sum_list (map snd (bump k c)) = S (n + sum_list (map snd c))).
    rewrite IH. lia.
Qed.

Lemma counts_step_ok s q d e l d1 :
  text_or_falsy (get e "service") = true →
  text_or_falsy (get e "question_clicked") = true →
  py_iter (py_or (get e "desires") (VList [])) = Ok l →
  foldM count_key d l = Ok d1 →
  counts_step (s, q, d) (Mongo.project ["service"; "question_clicked"; "desires"] e) =
  Ok (bump (VStr (label_of (get e "service"))) s,
      bump (VStr (label_of (get e "question_clicked"))) q, d1).
Proof.
  intros Hs Hq Hiter Hd1. unfold counts_step.
  rewrite !get_project by reflexivity.
  rewrite (py_or_label _ Hs), (py_or_label _ Hq), Hiter.
  change (count_key s (VStr (label_of (get e "service"))))
    with (Ok (bump (VStr (label_of (get e "service"))) s)).
  change (count_key q (VStr (label_of (get e "question_clicked"))))
    with (Ok (bump (VStr (label_of (get e "question_clicked"))) q)).
  cbn [mbind outcome_bind]. rewrite Hd1. reflexivity.
Qed.

Lemma counts_fold es : ∀ s q d,
  Forall (λ e, counts_typed e = true) es →
  ∃ s' q' d',
    foldM counts_step (s, q, d)
      (map (Mongo.project ["service"; "question_clicked"; "desires"]) es) = Ok (s', q', d') ∧
    (∀ x, counter_get s' (VStr x) = counter_get s (VStr x) + labelled "service" x es) ∧
    (∀ x, counter_get q' (VStr x) =
          counter_get q (VStr x) + labelled "question_clicked" x es) ∧
    (∀ x, counter_get d' (VStr x) = counter_get d (VStr x) + desired x es) ∧
    sum_list (map snd s') = sum_list (map snd s) + length es ∧
    sum_list (map snd q') = sum_list (map snd q) + length es.
Proof.
  induction es as [ | e es IH ]; intros s q d Hes.
  - exists s, q, d. split; [reflexivity | ].
    unfold labelled, desired. simpl. repeat split; intros; lia.
  - apply Forall_cons in Hes as [He Hes].
    unfold counts_typed in He. rewrite !andb_true_iff in He.
    destruct He as [[Hs Hq] Hd].
    destruct (desire_strings e) as [strs | ] eqn:Hstrs; [ | discriminate ].
    destruct (desires_items e strs Hstrs) as (l & Hiter & Hl).
    destruct (count_fold l d strs Hl) as (d1 & Hd1 & Hget).
    destruct (IH (bump (VStr (label_of (get e "service"))) s)
                 (bump (VStr (label_of (get e "question_clicked"))) q) d1 Hes)
      as (s' & q' & d' & Hrun & Hs' & Hq' & Hd' & Hsum & Hqsum).
    exists s', q', d'. split.
    + cbn [map foldM]. rewrite (counts_step_ok s q d e l d1 Hs Hq Hiter Hd1).
      cbn [mbind outcome_bind]. exact Hrun.
    + rewrite bump_sum in Hsum, Hqsum. cbn [length].
      split; [ | split; [ | split; [ | split; lia ] ] ]; intros x.
      * rewrite Hs', counter_get_bump. unfold labelled. rewrite length_filter_cons.
        destruct (String.eqb _ x); lia.
      * rewrite Hq', counter_get_bump. unfold labelled. rewrite length_filter_cons.
        destruct (String.eqb _ x); lia.
      * rewrite Hd', Hget. unfold desired. cbn [map sum_list]. rewrite Hstrs. simpl. lia.
Qed.

(** X1. When every service and question is a string or falsy and the
    desires are sequences of strings, the third loop of the insights
    completes, and the service and question histograms give, for each
    string, the number of engagements with that service (question) - counted
    under "Unknown" when the field is missing, null or empty, and not
    trimmed; every engagement is counted once in each. *)
Theorem service_question_histograms (es : list doc)
    (Htyped : Forall (λ e, counts_typed e = true) es) :
  ∃ s q d, counts_loop es = Ok (s, q, d) ∧
           (∀ x, counter_get s (VStr x) = labelled "service" x es) ∧
           (∀ x, counter_get q (VStr x) = labelled "question_clicked" x es) ∧
           sum_list (map snd s) = length es ∧
           sum_list (map snd q) = length es.
Proof.
  destruct (counts_fold es [] [] [] Htyped) as (s & q & d & Hrun & Hs & Hq & _ & Hss & Hqs).
  exists s, q, d. split; [exact Hrun | ]. repeat split; try done.
Qed.

Lemma service_question_histograms_witness :
  ∃ s q d, counts_loop two_visits = Ok (s, q, d) ∧
           counter_get s (VStr "Unknown") = 1 ∧ counter_get q (VStr "Q1") = 1.
Proof.
  destruct (service_question_histograms two_visits) as (s & q & d & Hrun & Hs & Hq & _).
  - repeat constructor.
  - exists s, q, d. split; [exact Hrun | ]. by rewrite Hs, Hq.
Defined.

(** X2. Under the same condition the desire histogram gives, for each
    string, the number of its occurrences in the desires of all
    engagements: a desire listed twice by one engagement counts twice. *)
Theorem desire_histogram (es : list doc)
    (Htyped : Forall (λ e, counts_typed e = true) es) :
  ∃ s q d, counts_loop es = Ok (s, q, d) ∧
           ∀ x, counter_get d (VStr x) = desired x es.
Proof.
  destruct (counts_fold es [] [] [] Htyped) as (s & q & d & Hrun & _ & _ & Hd & _).
  exists s, q, d. split; [exact Hrun | exact Hd].
Qed.

Lemma desire_histogram_witness :
  ∃ s q d, counts_loop two_visits = Ok (s, q, d) ∧ counter_get d (VStr "housing") = 3.
Proof.
  destruct (desire_histogram two_visits) as (s & q & d & Hrun & Hd).
  - repeat constructor.
  - exists s, q, d. split; [exact Hrun | ]. by rewrite Hd.
Defined.

(** ** The histograms and the order of the records *)

Lemma filter_length_perm {A} (f : A → bool) (l l' : list A) :
  l ≡ₚ l' → length (List.filter f l) = length (List.filter f l').
Proof.
  induction 1 as [ | x l l' _ IH | x y l | l l' l'' _ IH1 _ IH2 ].
  - reflexivity.
  - rewrite !length_filter_cons. lia.
  - rewrite !length_filter_cons. lia.
  - congruence.
Qed.

(** X3. The age histogram does not depend on the order in which the store
    returns the engagements. *)
Theorem age_histogram_order (es es' : list doc) (Hperm : es ≡ₚ es') :
  age_loop es = age_loop es'.
Proof.
  apply map_eq. intros b. rewrite !age_loop_lookup.
  by rewrite (filter_length_perm (falls_in b) es es' Hperm).
Qed.

Lemma age_histogram_order_witness :
  age_loop [[("age", VInt 70)]; [("age", VStr "12")]] =
  age_loop [[("age", VStr "12")]; [("age", VInt 70)]].
Proof.
  apply age_histogram_order. apply Permutation_swap.
Defined.

Lemma jobs_step_not_text acc e :
  job_is_text e = false → jobs_step acc e = Raise AttributeError.
Proof.
  unfold job_is_text, jobs_step, py_or.
  destruct (get e "job") as [ | [] | n | [ | c s] | t | [ | x l] | [ | x d] ];
    simpl; try discriminate; try reflexivity.
  destruct (n =? 0)%Z; simpl; [discriminate | reflexivity].
Qed.

Lemma jobs_fold_not_text es : ∀ acc,
  Exists (λ e, job_is_text e = false) es →
  foldM jobs_step acc es = Raise AttributeError.
Proof.
  induction es as [ | e es IH ]; intros acc Hex.
  - by apply Exists_nil in Hex.
  - cbn [foldM]. destruct (jobs_step acc e) as [acc' | ex] eqn:E; cbn [mbind outcome_bind].
    + apply IH. apply Exists_cons in Hex as [He | Hes]; [ | exact Hes ].
      rewrite (jobs_step_not_text acc e He) in E. discriminate.
    + by apply jobs_step_raises in E as ->.
Qed.

Lemma jobs_loop_text_or_raise es :
  Forall (λ e, job_is_text e = true) es ∨ jobs_loop es = Raise AttributeError.
Proof.
  destruct (decide (Forall (λ e, job_is_text e = true) es)) as [H | H]; [by left | right].
  apply not_Forall_Exists in H; [ | intros e; apply _ ].
  unfold jobs_loop. apply jobs_fold_not_text.
  apply Exists_fmap. eapply Exists_impl; [exact H | ].
  intros e He. simpl in *. rewrite job_is_text_project. by destruct (job_is_text e).
Qed.

(** X4. Neither does the job histogram: two orders of the same engagements
    give the same histogram, or both make the loop raise. *)
Theorem job_histogram_order (es es' : list doc) (Hperm : es ≡ₚ es') :
  jobs_loop es = jobs_loop es'.
Proof.
  destruct (jobs_loop_text_or_raise es) as [Ht | Hr].
  - assert (Forall (λ e, job_is_text e = true) es') as Ht' by by rewrite <- Hperm.
    assert (∀ l, Forall (λ e, job_is_text e = true) l →
                 Forall (λ e, job_is_text e = true) (map (Mongo.project ["job"]) l)) as Hproj.
    { intros l Hl. apply Forall_map. eapply Forall_impl; [exact Hl | ].
      intros e He. simpl. by rewrite job_is_text_project. }
    destruct (jobs_fold _ ∅ (Hproj es Ht)) as (h & Hh & Hlook & _).
    destruct (jobs_fold _ ∅ (Hproj es' Ht')) as (h' & Hh' & Hlook' & _).
    unfold jobs_loop. rewrite Hh, Hh'. f_equal. apply map_eq. intros j.
    rewrite Hlook, Hlook', !lookup_empty, !occurrences_project.
    unfold occurrences. by rewrite (filter_length_perm _ es es' Hperm).
  - rewrite Hr. symmetry.
    destruct (jobs_loop_text_or_raise es') as [Ht' | Hr']; [ | exact Hr' ].
    assert (Forall (λ e, job_is_text e = true) es) as Ht by by rewrite Hperm.
    unfold jobs_loop in Hr.
    destruct (jobs_fold (map (Mongo.project ["job"]) es) ∅) as (h & Hh & _).
    { apply Forall_map. eapply Forall_impl; [exact Ht | ].
      intros e He. simpl. by rewrite job_is_text_project. }
    rewrite Hh in Hr. discriminate.
Qed.

Lemma job_histogram_order_witness :
  jobs_loop [[("job", VStr "Nurse")]; [("job", VStr " Clerk")]] =
  jobs_loop [[("job", VStr " Clerk")]; [("job", VStr "Nurse")]].
Proof.
  apply job_histogram_order. apply Permutation_swap.
Defined.

(** ** Trimmed keys *)

Lemma lstrip_head sp l :
  lstrip sp l = [] ∨ ∃ c r, lstrip sp l = c :: r ∧ sp c = false.
Proof.
  induction l as [ | c l IH ]; simpl; [by left | ].
  destruct (sp c) eqn:E; [exact IH | right; eauto].
Qed.

Lemma rstrip_idem sp l : rstrip sp (rstrip sp l) = rstrip sp l.
Proof.
  induction l as [ | c l IH ]; simpl; [reflexivity | ].
  destruct (rstrip sp l) as [ | x r' ] eqn:E.
  - destruct (sp c) eqn:Ec; simpl; [reflexivity | by rewrite Ec].
  - change (rstrip sp (c :: x :: r')) with
      (match rstrip sp (x :: r') with
       | [] => if sp c then [] else [c]
       | r'' => c :: r''
       end).
    by rewrite IH.
Qed.

Lemma rstrip_head sp c r :
  sp c = false → ∃ r', rstrip sp (c :: r) = c :: r'.
Proof.
  intros Hc. simpl. destruct (rstrip sp r); [rewrite Hc | ]; eauto.
Qed.

Lemma strip_chars_idem sp l : strip_chars sp (strip_chars sp l) = strip_chars sp l.
Proof.
  unfold strip_chars. destruct (lstrip_head sp l) as [-> | (c & r & -> & Hc)].
  - reflexivity.
  - destruct (rstrip_head sp c r Hc) as [r' Hr']. rewrite Hr'.
    cbn [lstrip]. rewrite Hc. rewrite <- Hr'. apply rstrip_idem.
Qed.

Lemma strip_idem s : strip (strip s) = strip s.
Proof.
  unfold strip. by rewrite list_ascii_of_string_of_list_ascii, strip_chars_idem.
Qed.

Lemma jobs_fold_trimmed es : ∀ (acc h : gmap string nat),
  (∀ j, is_Some (acc !! j) → strip j = j) →
  foldM jobs_step acc es = Ok h →
  ∀ j, is_Some (h !! j) → strip j = j.
Proof.
  induction es as [ | e es IH ]; intros acc h Hacc; cbn [foldM].
  - by intros [= <-].
  - destruct (jobs_step acc e) as [acc' | ] eqn:E; cbn [mbind outcome_bind]; [ | discriminate ].
    apply IH. revert E. unfold jobs_step.
    destruct (py_or (get e "job") (VStr "Unknown")) as [ | | | s | | | ]; simpl;
      try discriminate.
    intros [= <-] j. destruct (decide (strip s = j)) as [<- | Hne].
    + intros _. apply strip_idem.
    + rewrite lookup_insert_ne by done. apply Hacc.
Qed.

(** X5. Every key of the job histogram is trimmed: jobs that differ only in
    the white space around them are counted under one key. *)
Theorem job_keys_trimmed (es : list doc) (h : gmap string nat)
    (Hrun : jobs_loop es = Ok h) :
  ∀ j, is_Some (h !! j) → strip j = j.
Proof.
  apply (jobs_fold_trimmed (map (Mongo.project ["job"]) es) ∅ h); [ | exact Hrun ].
  intros j. rewrite lookup_empty. by intros [? ?].
Qed.

Lemma job_keys_trimmed_witness :
  ∃ h, jobs_loop [[("job", VStr " Nurse ")]; [("job", VStr "Nurse")]] = Ok h ∧
       h !! "Nurse" = Some 2 ∧ ∀ j, is_Some (h !! j) → strip j = j.
Proof.
  eexists. split; [reflexivity | split; [reflexivity | ] ].
  apply (job_keys_trimmed [[("job", VStr " Nurse ")]; [("job", VStr "Nurse")]]).
  reflexivity.
Defined.

(** ** Premium leads over time *)





(** X7. The premium leads do not depend on the order in which the store
    returns the engagements, up to the order of the list. *)
Theorem leads_order (es es' : list doc) (Hperm : es ≡ₚ es')
    (Hpairs : Forall (λ e, has_pair e = true) es) :
  ∃ leads leads', suggestions (aggregate es) = Ok leads ∧
                  suggestions (aggregate es') = Ok leads' ∧
                  leads ≡ₚ leads'.
Proof.
  assert (Forall (λ e, has_pair e = true) es') as Hpairs' by by rewrite <- Hperm.
  destruct (premium_leads_truthy es Hpairs) as (leads & Hl & Hnd & Hform & Hin).
  destruct (premium_leads_truthy es' Hpairs') as (leads' & Hl' & Hnd' & Hform' & Hin').
  exists leads, leads'. split; [exact Hl | split; [exact Hl' | ] ].
  assert (∀ u q, pair_count u q es = pair_count u q es') as Hcount.
  { intros u q. unfold pair_count. by apply filter_length_perm. }
  apply NoDup_Permutation; [exact Hnd | exact Hnd' | ].
  intros l. split; intros Hl0.
  - destruct (Hform l Hl0) as (u & q & n & ->). apply Hin'. rewrite <- Hcount. by apply Hin.
  - destruct (Hform' l Hl0) as (u & q & n & ->). apply Hin. rewrite Hcount. by apply Hin'.
Qed.

Lemma leads_order_witness :
  ∃ leads leads', suggestions (aggregate example_engagements) = Ok leads ∧
                  suggestions (aggregate (rev example_engagements)) = Ok leads' ∧
                  leads ≡ₚ leads'.
Proof.
  apply leads_order.
  - apply Permutation_rev.
  - repeat constructor.
Defined.

(** ** The service catalogue: upsert, lookup and removal together *)

Lemma get_lookup d k v : get d k = v → v ≠ VNone → lookup_field d k = Some v.
Proof. unfold get. destruct (lookup_field d k); simpl; congruence. Qed.

Lemma matches_text k x d y :
  lookup_field d k = Some (VStr y) →
  Mongo.matches k (VStr x) d = String.eqb x y.
Proof. unfold Mongo.matches. by intros ->. Qed.

Lemma find_one_app k q pre l :
  Forall (λ x, Mongo.matches k q (Mongo.body x) = false) pre →
  Mongo.find_one k q (pre ++ l) = Mongo.find_one k q l.
Proof.
  induction 1 as [ | s pre Hs _ IH ]; simpl; [reflexivity | ]. by rewrite Hs.
Qed.

Lemma find_one_skip k q pre s post :
  Mongo.matches k q (Mongo.body s) = false →
  Mongo.find_one k q (pre ++ s :: post) = Mongo.find_one k q (pre ++ post).
Proof.
  intros Hs. induction pre as [ | x pre IH ]; simpl.
  - by rewrite Hs.
  - by rewrite IH.
Qed.

Lemma find_one_None k q c :
  Mongo.find_one k q c = None ↔
  Forall (λ x, Mongo.matches k q (Mongo.body x) = false) c.
Proof.
  induction c as [ | s c IH ]; simpl.
  - split; [constructor | reflexivity].
  - rewrite Forall_cons. destruct (Mongo.matches k q (Mongo.body s)).
    + split; [discriminate | intros [[=] _] ].
    + rewrite IH. tauto.
Qed.

Lemma delete_one_app k q pre l :
  Forall (λ x, Mongo.matches k q (Mongo.body x) = false) pre →
  Mongo.delete_one k q (pre ++ l) = pre ++ Mongo.delete_one k q l.
Proof.
  induction 1 as [ | s pre Hs _ IH ]; simpl; [reflexivity | ]. by rewrite Hs, IH.
Qed.

(** What [update_one] with [upsert=True] leaves in the collection. *)
Lemma upsert_cases c next q upd c' n' :
  Mongo.update_one_upsert c next "id" q upd = Mongo.Done (c', n') →
  (∃ pre s post,
     c = pre ++ s :: post ∧
     Forall (λ x, Mongo.matches "id" q (Mongo.body x) = false) pre ∧
     Mongo.matches "id" q (Mongo.body s) = true ∧
     c' = pre ++ {| Mongo.oid := Mongo.oid s;
                    Mongo.body := Mongo.set_fields (Mongo.body s) (Mongo.decoded_doc upd) |}
              :: post ∧
     n' = next) ∨
  (Forall (λ x, Mongo.matches "id" q (Mongo.body x) = false) c ∧
   c' = c ++ [{| Mongo.oid := next;
                 Mongo.body := Mongo.set_fields [("id", Mongo.decoded q)]
                                                (Mongo.decoded_doc upd) |}] ∧
   n' = N.succ next).
Proof.
  unfold Mongo.update_one_upsert.
  destruct (negb (_ && _ && _)); [discriminate | ].
  destruct (negb (_ && _)); [discriminate | ].
  destruct (Mongo.update_first _ _ c) as [c0 | ] eqn:Hu; intros [= <- <-].
  - left. apply update_first_Some in Hu as (pre & s & post & -> & Hpre & Hs & ->).
    by exists pre, s, post.
  - right. apply update_first_None in Hu. done.
Qed.

Lemma upsert_storable c next q upd :
  storable_update q upd = true →
  ∃ c' n', Mongo.update_one_upsert c next "id" q upd = Mongo.Done (c', n').
Proof.
  unfold storable_update, Mongo.update_one_upsert.
  rewrite !andb_true_iff. intros [[[[-> ->] ->] ->] ->]. simpl.
  destruct (Mongo.update_first _ _ c); eauto.
Qed.

(** The POST branch of [admin_services] on a payload with a string [id]. *)
Lemma admin_services_post req st payload sid :
  truthy (get (session st) "admin_logged_in") = true →
  method req = POST →
  json req = VDict payload →
  get payload "id" = VStr sid →
  sid ≠ EmptyString →
  storable_update (VStr sid) payload = true →
  ∃ c n, Mongo.update_one_upsert (services_col st) (next_oid st) "id" (VStr sid) payload
           = Mongo.Done (c, n) ∧
         admin_services req st = (with_services st c n, Resp (status "ok")).
Proof.
  intros Hadmin Hpost Hbody Hid Hne Hstore.
  destruct (upsert_storable (services_col st) (next_oid st) _ _ Hstore) as (c & n & Hup).
  exists c, n. split; [exact Hup | ].
  unfold admin_services. rewrite admin_required_pass by exact Hadmin.
  rewrite Hpost, Hbody. simpl. rewrite Hid.
  destruct sid; [done | ]. simpl. by rewrite Hup.
Qed.

(** The [id] of the record an upsert writes is the [id] of the payload. *)
Lemma upserted_id d payload sid :
  NoDup (map fst payload) →
  get payload "id" = VStr sid →
  lookup_field (Mongo.set_fields d (Mongo.decoded_doc payload)) "id" = Some (VStr sid).
Proof.
  intros Hkeys Hid. rewrite lookup_set_fields by by rewrite decoded_doc_keys.
  rewrite lookup_decoded_doc, (get_lookup _ _ _ Hid); done.
Qed.

(** X8. A service that was posted can be read back: after an upsert with a
    string [id], [GET /api/service/<id>] answers a record that carries every
    field of the payload. *)
Theorem upsert_then_get_service (req req' : request) (st : state)
    (payload : doc) (sid : string)
    (Hadmin : truthy (get (session st) "admin_logged_in") = true)
    (Hpost : method req = POST)
    (Hbody : json req = VDict payload)
    (Hid : get payload "id" = VStr sid)
    (Hne : sid ≠ EmptyString)
    (Hkeys : NoDup (map fst payload))
    (Hstore : storable_update (VStr sid) payload = true)
    (Hget : service_id req' = sid) :
  ∃ st' d,
    admin_services req st = (st', Resp (status "ok")) ∧
    get_service req' st' = (st', Resp (Json (VDict d) 200)) ∧
    ∀ k v, lookup_field payload k = Some v →
           lookup_field d k = Some (Mongo.decoded v).
Proof.
  destruct (admin_services_post req st payload sid) as (c & n & Hup & Hrun); try done.
  assert (∀ d0, ∃ d, Mongo.set_fields d0 (Mongo.decoded_doc payload) = d ∧
                     Mongo.matches "id" (VStr sid) d = true ∧
                     py_or (VDict d) (VDict []) = VDict d ∧
                     ∀ k v, lookup_field payload k = Some v →
                            lookup_field d k = Some (Mongo.decoded v)) as Hnew.
  { intros d0. eexists. split; [reflexivity | ].
    pose proof (upserted_id d0 payload sid Hkeys Hid) as Hl.
    split; [ | split ].
    - rewrite (matches_text _ _ _ _ Hl). apply String.eqb_refl.
    - unfold py_or. destruct (Mongo.set_fields d0 _); [discriminate | reflexivity].
    - intros k v Hk. rewrite lookup_set_fields by by rewrite decoded_doc_keys.
      by rewrite lookup_decoded_doc, Hk. }
  apply upsert_cases in Hup
    as [(pre & s & post & Hc & Hpre & Hs & -> & ->) | (Hall & -> & ->)].
  - destruct (Hnew (Mongo.body s)) as (d & Hd & Hm & Hor & Hfields).
    exists (with_services st
              (pre ++ {| Mongo.oid := Mongo.oid s; Mongo.body := d |} :: post)
              (next_oid st)), d.
    rewrite <- Hd at 1. split; [exact Hrun | split; [ | exact Hfields ] ].
    unfold get_service. rewrite Hget. cbn [services_col with_services].
    rewrite find_one_app by exact Hpre. simpl. by rewrite Hm, Hor.
  - destruct (Hnew [("id", Mongo.decoded (VStr sid))]) as (d & Hd & Hm & Hor & Hfields).
    exists (with_services st
              (services_col st ++ [{| Mongo.oid := next_oid st; Mongo.body := d |}])
              (N.succ (next_oid st))), d.
    rewrite <- Hd at 1. split; [exact Hrun | split; [ | exact Hfields ] ].
    unfold get_service. rewrite Hget. cbn [services_col with_services].
    rewrite find_one_app by exact Hall. simpl. by rewrite Hm, Hor.
Qed.

Lemma upsert_then_get_service_witness :
  ∃ d, get_service (get_request "s2") (admin_services post_s2 admin_state).1
         = ((admin_services post_s2 admin_state).1, Resp (Json (VDict d) 200)) ∧
       lookup_field d "name" = Some (VStr "Passport").
Proof.
  destruct (upsert_then_get_service post_s2 (get_request "s2") admin_state
              [("id", VStr "s2"); ("name", VStr "Passport")] "s2")
    as (st' & d & Hrun & Hget & Hfields); try reflexivity.
  - discriminate.
  - apply NoDup_cons. split; [ | apply NoDup_singleton ].
    rewrite list_elem_of_singleton. discriminate.
  - exists d. rewrite Hrun. split; [exact Hget | ].
    exact (Hfields "name" (VStr "Passport") eq_refl).
Defined.

Lemma find_one_Some k q c d :
  Mongo.find_one k q c = Some d → Mongo.matches k q d = true.
Proof.
  induction c as [ | s c IH ]; simpl; [discriminate | ].
  destruct (Mongo.matches k q (Mongo.body s)) eqn:Hs; [ | exact IH ].
  by intros [= <-].
Qed.

(** [delete_one] removes the first record that matches, and nothing when no
    record does. *)
Lemma delete_one_cases k q c :
  (Forall (λ x, Mongo.matches k q (Mongo.body x) = false) c ∧
   Mongo.delete_one k q c = c) ∨
  (∃ pre s post,
     c = pre ++ s :: post ∧
     Forall (λ x, Mongo.matches k q (Mongo.body x) = false) pre ∧
     Mongo.matches k q (Mongo.body s) = true ∧
     Mongo.delete_one k q c = pre ++ post).
Proof.
  induction c as [ | s c IH ]; simpl.
  - left. split; [constructor | reflexivity].
  - destruct (Mongo.matches k q (Mongo.body s)) eqn:Hs.
    + right. by exists [], s, c.
    + destruct IH as [[Hall ->] | (pre & x & post & -> & Hpre & Hx & ->)].
      * left. split; [by apply Forall_cons | reflexivity].
      * right. exists (s :: pre), x, post. split; [reflexivity | ].
        split; [by apply Forall_cons | done].
Qed.

Lemma text_id_lookup (s : Mongo.stored) :
  is_text (get (Mongo.body s) "id") = true →
  ∃ y, get (Mongo.body s) "id" = VStr y ∧
       lookup_field (Mongo.body s) "id" = Some (VStr y).
Proof.
  destruct (get (Mongo.body s) "id") as [ | | | y | | | ] eqn:Hg; try discriminate.
  intros _. exists y. split; [reflexivity | ]. by apply get_lookup.
Qed.

(** In a catalogue of string ids, the records a string id does not match are
    those with another id. *)
Lemma matches_id sid (s : Mongo.stored) :
  is_text (get (Mongo.body s) "id") = true →
  Mongo.matches "id" (VStr sid) (Mongo.body s) = true ↔
  get (Mongo.body s) "id" = VStr sid.
Proof.
  intros (y & Hy & Hl)%text_id_lookup.
  rewrite (matches_text _ _ _ _ Hl), Hy, String.eqb_eq. split; congruence.
Qed.

Lemma distinct_ids_app pre s post :
  distinct_ids (pre ++ s :: post) ↔
  distinct_ids (pre ++ post) ∧
  is_text (get (Mongo.body s) "id") = true ∧
  get (Mongo.body s) "id" ∉ service_ids (pre ++ post).
Proof.
  unfold distinct_ids, service_ids. rewrite !map_app, map_cons.
  rewrite !Forall_app, Forall_cons, !NoDup_app, NoDup_cons, elem_of_app.
  split.
  - intros [(Hpre & Hs & Hpost) (Hnd & Hsep & Hn & Hnd')].
    repeat split; try done.
    + intros x Hx Hx'. apply (Hsep x Hx). by apply elem_of_cons; right.
    + intros [Hin | Hin]; [ | done]. apply (Hsep _ Hin). by apply elem_of_cons; left.
  - intros [[[Hpre Hpost] (Hnd & Hsep & Hnd')] [Hs Hn] ].
    repeat split; try done.
    + intros x Hx [-> | Hx']%elem_of_cons; [tauto | by apply (Hsep x)].
    + tauto.
Qed.

Lemma distinct_ids_member c s :
  distinct_ids c → s ∈ c → is_text (get (Mongo.body s) "id") = true.
Proof.
  intros [Hall _] Hs. rewrite Forall_forall in Hall. apply Hall.
  unfold service_ids. apply list_elem_of_fmap. by exists s.
Qed.

Lemma upsert_distinct c next payload sid c' n' :
  distinct_ids c →
  NoDup (map fst payload) →
  get payload "id" = VStr sid →
  Mongo.update_one_upsert c next "id" (VStr sid) payload = Mongo.Done (c', n') →
  distinct_ids c' ∧
  ∀ other, other ≠ sid →
    Mongo.find_one "id" (VStr other) c' = Mongo.find_one "id" (VStr other) c.
Proof.
  intros Hids Hkeys Hid Hup.
  assert (∀ d0 other, other ≠ sid →
            Mongo.matches "id" (VStr other)
              (Mongo.set_fields d0 (Mongo.decoded_doc payload)) = false) as Hnew.
  { intros d0 other Hne. rewrite (matches_text _ _ _ _ (upserted_id d0 _ _ Hkeys Hid)).
    by apply String.eqb_neq. }
  assert (∀ d0, get (Mongo.set_fields d0 (Mongo.decoded_doc payload)) "id" = VStr sid)
    as Hnewid.
  { intros d0. unfold get. by rewrite (upserted_id d0 _ _ Hkeys Hid). }
  apply upsert_cases in Hup
    as [(pre & s & post & -> & Hpre & Hs & -> & ->) | (Hall & -> & ->)].
  - apply distinct_ids_app in Hids as (Hrest & Htext & Hfresh).
    apply (matches_id sid s Htext) in Hs.
    split.
    + apply distinct_ids_app. simpl. rewrite Hnewid, <- Hs. done.
    + intros other Hne. rewrite !find_one_skip; [reflexivity | | ].
      * destruct (Mongo.matches "id" (VStr other) (Mongo.body s)) eqn:Hm; [ | done].
        apply (matches_id other s Htext) in Hm. congruence.
      * apply Hnew, Hne.
  - split.
    + apply distinct_ids_app. rewrite app_nil_r. simpl. rewrite Hnewid.
      split; [exact Hids | split; [reflexivity | ] ].
      intros (s & Hs & Hin)%list_elem_of_fmap.
      rewrite Forall_forall in Hall. specialize (Hall s Hin).
      symmetry in Hs.
      apply (proj2 (matches_id sid s (distinct_ids_member _ _ Hids Hin))) in Hs. congruence.
    + intros other Hne. rewrite find_one_skip by apply Hnew, Hne. by rewrite app_nil_r.
Qed.

(** X9. In a catalogue whose services have distinct string ids, an upsert
    with a string id keeps the ids distinct, and every service with another
    id is read back as before, whatever the request does. *)
Theorem upsert_keeps_other_services (req req' : request) (st : state)
    (payload : doc) (sid : string)
    (Hids : distinct_ids (services_col st))
    (Hbody : json req = VDict payload)
    (Hid : get payload "id" = VStr sid)
    (Hkeys : NoDup (map fst payload))
    (Hother : service_id req' ≠ sid) :
  distinct_ids (services_col (admin_services req st).1) ∧
  (get_service req' (admin_services req st).1).2 = (get_service req' st).2.
Proof.
  unfold admin_services, admin_required.
  destruct (negb (truthy (get (session st) "admin_logged_in"))); [done | ].
  destruct (method req); [done | | ]; rewrite Hbody; simpl; rewrite Hid;
    (destruct (negb (truthy (VStr sid))); [done | ]);
    (destruct (Mongo.update_one_upsert _ _ _ _ _) as [[c n] | e | ] eqn:Hup; [ | done | done]);
    destruct (upsert_distinct _ _ _ _ _ _ Hids Hkeys Hid Hup) as [Hd Hframe];
    (split; [exact Hd | ]); unfold get_service; simpl; by rewrite Hframe.
Qed.

Lemma upsert_keeps_other_services_witness :
  distinct_ids (services_col (admin_services post_s2 admin_state).1) ∧
  (get_service (get_request "s1") (admin_services post_s2 admin_state).1).2 =
  Resp (Json (VDict (Mongo.body service_s1)) 200).
Proof.
  apply (upsert_keeps_other_services post_s2 (get_request "s1") admin_state
           [("id", VStr "s2"); ("name", VStr "Passport")] "s2").
  - split; [by repeat constructor | ]. apply NoDup_singleton.
  - reflexivity.
  - reflexivity.
  - apply NoDup_cons. split; [ | apply NoDup_singleton ].
    rewrite list_elem_of_singleton. discriminate.
  - discriminate.
Defined.

(** X10. In a catalogue whose services have distinct string ids, a removed
    service is gone: [GET /api/service/<id>] answers [{}] afterwards, the ids
    stay distinct, and every other service is read back as before. *)
Theorem delete_then_get_service (req req' : request) (st : state)
    (Hadmin : truthy (get (session st) "admin_logged_in") = true)
    (Hids : distinct_ids (services_col st))
    (Hother : service_id req' ≠ service_id req) :
  ∃ st', delete_service req st = (st', Resp (status "deleted")) ∧
         distinct_ids (services_col st') ∧
         get_service req st' = (st', Resp (Json (VDict []) 200)) ∧
         (get_service req' st').2 = (get_service req' st).2.
Proof.
  unfold delete_service. rewrite admin_required_pass by exact Hadmin.
  eexists. split; [reflexivity | ]. unfold get_service. cbn [services_col with_services].
  destruct (delete_one_cases "id" (VStr (service_id req)) (services_col st))
    as [[Hall ->] | (pre & s & post & Hc & Hpre & Hs & ->)].
  - split; [exact Hids | ]. apply find_one_None in Hall. rewrite Hall. done.
  - rewrite Hc in Hids. apply distinct_ids_app in Hids as (Hrest & Htext & Hfresh).
    apply (matches_id _ s Htext) in Hs.
    split; [exact Hrest | split ].
    + assert (Mongo.find_one "id" (VStr (service_id req)) (pre ++ post) = None) as ->;
        [ | done ].
      apply find_one_None, Forall_forall. intros x Hx.
      destruct (Mongo.matches "id" (VStr (service_id req)) (Mongo.body x)) eqn:Hm; [ | done].
      apply (matches_id _ x (distinct_ids_member _ _ Hrest Hx)) in Hm.
      destruct Hfresh. rewrite Hs, <- Hm. apply list_elem_of_fmap. by exists x.
    + rewrite Hc, find_one_skip; [reflexivity | ].
      destruct (Mongo.matches "id" (VStr (service_id req')) (Mongo.body s)) eqn:Hm; [ | done].
      apply (matches_id _ s Htext) in Hm. congruence.
Qed.

Lemma delete_then_get_service_witness :
  ∃ st', delete_service delete_s1 admin_state = (st', Resp (status "deleted")) ∧
         get_service delete_s1 st' = (st', Resp (Json (VDict []) 200)).
Proof.
  destruct (delete_then_get_service delete_s1 (get_request "s2") admin_state)
    as (st' & Hrun & _ & Hget & _).
  - reflexivity.
  - split; [by repeat constructor | ]. apply NoDup_singleton.
  - discriminate.
  - by exists st'.
Defined.

Lemma with_services_same st :
  with_services st (services_col st) (next_oid st) = st.
Proof. by destruct st. Qed.

(** X11. Removing a service that [GET /api/service/<id>] does not find is no
    error: the answer is still [{"status": "deleted"}] and nothing changes. *)
Theorem delete_unknown_service (req : request) (st : state)
    (Hadmin : truthy (get (session st) "admin_logged_in") = true)
    (Hmiss : (get_service req st).2 = Resp (Json (VDict []) 200)) :
  delete_service req st = (st, Resp (status "deleted")).
Proof.
  unfold delete_service. rewrite admin_required_pass by exact Hadmin.
  assert (Mongo.find_one "id" (VStr (service_id req)) (services_col st) = None) as Hnone.
  { unfold get_service in Hmiss. simpl in Hmiss.
    destruct (Mongo.find_one _ _ _) as [d | ] eqn:Hf; [ | reflexivity].
    apply find_one_Some in Hf. destruct d as [ | kv d]; [discriminate | ].
    unfold py_or in Hmiss. simpl in Hmiss. discriminate. }
  apply find_one_None in Hnone.
  destruct (delete_one_cases "id" (VStr (service_id req)) (services_col st))
    as [[_ ->] | (pre & s & post & Hc & _ & Hs & _)].
  - by rewrite with_services_same.
  - rewrite Hc, Forall_app, Forall_cons in Hnone. destruct Hnone as (_ & Hs' & _). congruence.
Qed.

Lemma delete_unknown_service_witness :
  delete_service (delete_request "s9") admin_state = (admin_state, Resp (status "deleted")).
Proof. apply delete_unknown_service; reflexivity. Defined.

Lemma set_field_same d k v :
  lookup_field d k = Some v → Mongo.set_field d k v = d.
Proof.
  induction d as [ | [k0 v0] d IH ]; simpl; [discriminate | ].
  destruct (String.eqb k0 k); [by intros [= ->] | ].
  intros Hl. by rewrite IH.
Qed.

Lemma set_fields_same upd : ∀ d,
  (∀ k v, (k, v) ∈ upd → lookup_field d k = Some v) →
  Mongo.set_fields d upd = d.
Proof.
  unfold Mongo.set_fields.
  induction upd as [ | [k v] upd IH ]; intros d Hall; simpl; [reflexivity | ].
  rewrite set_field_same.
  - apply IH. intros k' v' Hin. apply Hall. by apply elem_of_cons; right.
  - apply Hall. by apply elem_of_cons; left.
Qed.

Lemma lookup_field_elem d k v :
  NoDup (map fst d) → (k, v) ∈ d → lookup_field d k = Some v.
Proof.
  induction d as [ | [k0 v0] d IH ]; simpl; [by intros _ ?%elem_of_nil | ].
  rewrite NoDup_cons. intros [Hk0 Hnd] [[= -> ->] | Hin]%elem_of_cons.
  - by rewrite String.eqb_refl.
  - destruct (String.eqb_spec k0 k) as [-> | Hne]; [ | by apply IH].
    destruct Hk0. apply list_elem_of_fmap. by exists (k, v).
Qed.

(** [$set] with the same fields a second time changes nothing. *)
Lemma set_fields_idem d upd :
  NoDup (map fst upd) →
  Mongo.set_fields (Mongo.set_fields d upd) upd = Mongo.set_fields d upd.
Proof.
  intros Hnd. apply set_fields_same. intros k v Hin.
  by rewrite lookup_set_fields, (lookup_field_elem _ _ _ Hnd Hin).
Qed.

Lemma update_first_app p f pre l :
  Forall (λ x, p (Mongo.body x) = false) pre →
  Mongo.update_first p f (pre ++ l) = (pre ++.) <$> Mongo.update_first p f l.
Proof.
  induction 1 as [ | s pre Hs _ IH ]; simpl.
  - by destruct (Mongo.update_first p f l).
  - rewrite Hs, IH. by destruct (Mongo.update_first p f l).
Qed.

Lemma upsert_storable_eq c next q upd :
  storable_update q upd = true →
  Mongo.update_one_upsert c next "id" q upd =
  Mongo.Done
    match Mongo.update_first (Mongo.matches "id" q)
            (λ d, Mongo.set_fields d (Mongo.decoded_doc upd)) c with
    | Some c' => (c', next)
    | None => (c ++ [{| Mongo.oid := next;
                        Mongo.body := Mongo.set_fields [("id", Mongo.decoded q)]
                                                       (Mongo.decoded_doc upd) |}],
               N.succ next)
    end.
Proof.
  unfold storable_update, Mongo.update_one_upsert.
  rewrite !andb_true_iff. intros [[[[-> ->] ->] ->] ->]. simpl.
  by destruct (Mongo.update_first _ _ c).
Qed.

(** X12. Posting the same service a second time changes nothing: the upsert
    is idempotent. *)
Theorem upsert_twice (req : request) (st : state) (payload : doc) (sid : string)
    (Hadmin : truthy (get (session st) "admin_logged_in") = true)
    (Hpost : method req = POST)
    (Hbody : json req = VDict payload)
    (Hid : get payload "id" = VStr sid)
    (Hne : sid ≠ EmptyString)
    (Hkeys : NoDup (map fst payload))
    (Hstore : storable_update (VStr sid) payload = true) :
  ∃ st', admin_services req st = (st', Resp (status "ok")) ∧
         admin_services req st' = (st', Resp (status "ok")).
Proof.
  destruct (admin_services_post req st payload sid) as (c & n & Hup & Hrun); try done.
  exists (with_services st c n). split; [exact Hrun | ].
  destruct (admin_services_post req (with_services st c n) payload sid)
    as (c2 & n2 & Hup2 & ->); try done.
  cbn [services_col next_oid with_services] in Hup2.
  assert ((c2, n2) = (c, n)) as [= -> ->]; [ | reflexivity ].
  rewrite (upsert_storable_eq _ _ _ _ Hstore) in Hup2. injection Hup2 as <-.
  assert (NoDup (map fst (Mongo.decoded_doc payload))) as Hkeys'
    by by rewrite decoded_doc_keys.
  apply upsert_cases in Hup
    as [(pre & s & post & Hc & Hpre & Hs & -> & ->) | (Hall & -> & ->)];
    rewrite update_first_app by done; simpl.
  - rewrite (matches_text _ _ _ _ (upserted_id (Mongo.body s) _ _ Hkeys Hid)),
      String.eqb_refl. simpl. by rewrite set_fields_idem.
  - rewrite (matches_text _ _ _ _ (upserted_id _ _ _ Hkeys Hid)), String.eqb_refl.
    simpl. by rewrite set_fields_idem.
Qed.

Lemma upsert_twice_witness :
  ∃ st', admin_services post_s2 admin_state = (st', Resp (status "ok")) ∧
         admin_services post_s2 st' = (st', Resp (status "ok")).
Proof.
  apply (upsert_twice post_s2 admin_state
           [("id", VStr "s2"); ("name", VStr "Passport")] "s2"); try reflexivity.
  - discriminate.
  - apply NoDup_cons. split; [ | apply NoDup_singleton ].
    rewrite list_elem_of_singleton. discriminate.
Defined.

(** X13. A service that did not exist, once posted and then removed, leaves
    the catalogue as it was. *)
Theorem upsert_then_delete (req req' : request) (st : state)
    (payload : doc) (sid : string)
    (Hadmin : truthy (get (session st) "admin_logged_in") = true)
    (Hpost : method req = POST)
    (Hbody : json req = VDict payload)
    (Hid : get payload "id" = VStr sid)
    (Hne : sid ≠ EmptyString)
    (Hkeys : NoDup (map fst payload))
    (Hstore : storable_update (VStr sid) payload = true)
    (Hdel : service_id req' = sid)
    (Hmiss : Mongo.find_one "id" (VStr sid) (services_col st) = None) :
  ∃ st' st'', admin_services req st = (st', Resp (status "ok")) ∧
              delete_service req' st' = (st'', Resp (status "deleted")) ∧
              services_col st'' = services_col st.
Proof.
  destruct (admin_services_post req st payload sid) as (c & n & Hup & Hrun); try done.
  exists (with_services st c n). eexists. split; [exact Hrun | ].
  unfold delete_service. rewrite admin_required_pass by exact Hadmin.
  split; [reflexivity | ]. cbn [services_col with_services]. rewrite Hdel.
  apply find_one_None in Hmiss.
  apply upsert_cases in Hup
    as [(pre & s & post & Hc & _ & Hs & _) | (Hall & -> & _)].
  - rewrite Hc, Forall_app, Forall_cons in Hmiss. destruct Hmiss as (_ & Hs' & _).
    congruence.
  - rewrite delete_one_app by exact Hall. simpl.
    rewrite (matches_text _ _ _ _ (upserted_id _ _ _ Hkeys Hid)), String.eqb_refl.
    apply app_nil_r.
Qed.

Lemma upsert_then_delete_witness :
  ∃ st' st'', admin_services post_s2 admin_state = (st', Resp (status "ok")) ∧
              delete_service (delete_request "s2") st' = (st'', Resp (status "deleted")) ∧
              services_col st'' = [service_s1].
Proof.
  apply (upsert_then_delete post_s2 (delete_request "s2") admin_state
           [("id", VStr "s2"); ("name", VStr "Passport")] "s2"); try reflexivity.
  - discriminate.
  - apply NoDup_cons. split; [ | apply NoDup_singleton ].
    rewrite list_elem_of_singleton. discriminate.
Defined.

(** ** The session: login, logout and the first admin *)

(** X14. On a store without admins, loading the module creates one admin,
    and a login then succeeds exactly for the user [admin] with the password
    of [ADMIN_PWD] ([admin123] when it is not set); any other login is
    answered 401 and changes nothing. *)
Theorem bootstrap_login (admin_pwd : option string) (st : state) (req : request)
    (Hempty : admins_col st = [])
    (Hpost : method req = POST) :
  ∃ st0, ensure_admin admin_pwd st = Mongo.Done st0 ∧
    if value_eqb (form_get (form req) "username") (VStr "admin") &&
       value_eqb (form_get (form req) "password") (VStr (default "admin123" admin_pwd))
    then ∃ st1, admin_login req st0 = (st1, Resp (Redirect "/admin")) ∧
                truthy (get (session st1) "admin_logged_in") = true
    else admin_login req st0 = (st0, Resp (Text "Login failed" 401)).
Proof.
  unfold ensure_admin. rewrite Hempty. simpl. eexists. split; [reflexivity | ].
  unfold admin_login. rewrite Hpost. cbn [admins_col with_admins Mongo.find_one Mongo.body].
  destruct (form_get (form req) "username") as [ | | | u | | | ] eqn:Hu;
    try reflexivity.
  unfold Mongo.matches. simpl.
  destruct (String.eqb_spec u "admin") as [-> | Hne]; [ | reflexivity].
  destruct (form_get (form req) "password") as [ | | | p | | | ] eqn:Hp;
    try reflexivity.
  unfold get. simpl. rewrite (String.eqb_sym p).
  destruct (String.eqb (default "admin123" admin_pwd) p); [ | reflexivity].
  eexists. split; [reflexivity | ].
  unfold get, setitem. cbn [session with_session].
  by rewrite lookup_set_field, lookup_set_field.
Qed.

Lemma bootstrap_login_witness :
  ∃ st0, ensure_admin None empty_state = Mongo.Done st0 ∧
         ∃ st1, admin_login (login_request "admin" "admin123") st0
                  = (st1, Resp (Redirect "/admin")) ∧
                truthy (get (session st1) "admin_logged_in") = true.
Proof.
  exact (bootstrap_login None empty_state (login_request "admin" "admin123")
           eq_refl eq_refl).
Defined.

(** X15. After a logout request the admin gate is closed, whether or not an
    admin was logged in: every admin-only view answers 401 and the admin
    page redirects to the login, until the next login. *)
Theorem logout_closes_gate (fn : handler) (req req' : request) (st : state) :
  admin_required fn req' (admin_logout req st).1 =
    ((admin_logout req st).1, Resp unauthorized) ∧
  admin_page req' (admin_logout req st).1 =
    ((admin_logout req st).1, Resp (Redirect "/admin/login")).
Proof.
  assert (truthy (get (session (admin_logout req st).1) "admin_logged_in") = false)
    as Hclosed.
  { unfold admin_logout, admin_required.
    destruct (truthy (get (session st) "admin_logged_in")) eqn:Hs; simpl;
      [reflexivity | exact Hs]. }
  split; [by apply admin_required_gate | ].
  unfold admin_page. by rewrite Hclosed.
Qed.

Lemma log_engagement_session req st :
  session (log_engagement req st).1 = session st.
Proof.
  unfold log_engagement.
  destruct (engagement_doc _ _) as [d | e]; [ | reflexivity].
  by destruct (Mongo.insert_one _ _ _) as [[c n] | e | ].
Qed.

(** X16. While nobody is logged in, no request to any route opens the admin
    gate except a login whose user name matches a stored admin with the same
    password. *)
Theorem gate_opened_by_login_only (py_repr : value → string)
    (sort_desc : string → Mongo.collection → Mongo.collection) (oid_str : N → string)
    (h : handler) (req : request) (st : state)
    (Hroute : h ∈ routes py_repr sort_desc oid_str)
    (Hclosed : truthy (get (session st) "admin_logged_in") = false)
    (Hopen : truthy (get (session (h req st).1) "admin_logged_in") = true) :
  (h req st).2 = Resp (Redirect "/admin") ∧
  ∃ admin,
    Mongo.find_one "username" (form_get (form req) "username") (admins_col st)
      = Some admin ∧
    get admin "password" = form_get (form req) "password".
Proof.
  assert (∀ fn, truthy (get (session (admin_required fn req st).1) "admin_logged_in")
                = false) as Hgate.
  { intros fn. by rewrite admin_required_gate. }
  unfold routes in Hroute.
  repeat (apply elem_of_cons in Hroute as [-> | Hroute]);
    try (by apply elem_of_nil in Hroute);
    try (simpl in Hopen; congruence);
    try (rewrite log_engagement_session in Hopen; congruence);
    try (unfold manage_page, admin_logout, admin_insights, admin_engagements, export_csv,
           admin_services, delete_service in Hopen; rewrite Hgate in Hopen; discriminate).
  - unfold admin_page in Hopen. rewrite Hclosed in Hopen. simpl in Hopen. congruence.
  - unfold admin_login in *. destruct (method req); [simpl in Hopen; congruence | | ];
      (destruct (Mongo.find_one _ _ _) as [admin | ]; [ | simpl in Hopen; congruence ]);
      (destruct (value_eqb _ _) eqn:Hpw; [ | simpl in Hopen; congruence ]);
      (split; [reflexivity | ]); exists admin; (split; [reflexivity | ]);
      by apply value_eqb_eq.
Qed.

Lemma gate_opened_by_login_only_witness :
  (admin_login (login_request "admin" "admin123") fresh_state).2
    = Resp (Redirect "/admin") ∧
  ∃ admin,
    Mongo.find_one "username" (VStr "admin") (admins_col fresh_state) = Some admin ∧
    get admin "password" = VStr "admin123".
Proof.
  apply (gate_opened_by_login_only (λ _, EmptyString)
           (λ _ c, c) (λ _, EmptyString) admin_login
           (login_request "admin" "admin123") fresh_state).
  - unfold routes. do 6 (apply elem_of_cons; right). by apply elem_of_cons; left.
  - reflexivity.
  - reflexivity.
Defined.

(** ** From a logged engagement to the insights *)

Lemma falsy_int v n : truthy v = false → py_int v = Ok n → n = 0%Z.
Proof.
  destruct v as [ | [ | ] | m | [ | c s] | | | ]; simpl; try discriminate.
  - by intros _ [= <-].
  - intros Hm [= <-]. by apply negb_false_iff, Z.eqb_eq in Hm.
Qed.

Lemma find_snoc c s : Mongo.find (c ++ [s]) = Mongo.find c ++ [Mongo.body s].
Proof. unfold Mongo.find. by rewrite map_app. Qed.

Lemma age_loop_snoc es e :
  age_loop (es ++ [e]) =
  match counted_age e with
  | Some n => incr (age_label n) (age_loop es)
  | None => age_loop es
  end.
Proof.
  unfold age_loop. rewrite map_app, foldl_app. simpl.
  by rewrite age_step_counted, counted_age_project.
Qed.

(** X17. A logged engagement adds one to the cohort of its age and changes
    no other count of the age histogram; an engagement whose age is missing,
    falsy or the number zero (also as the text [0]) changes no count. *)
Theorem logged_age_is_counted (req : request) (st st' : state) (r : response)
    (Hrun : log_engagement req st = (st', Resp r)) :
  ∃ payload,
    py_or (json req) (VDict []) = VDict payload ∧
    age_loop (Mongo.find (eng_col st')) =
    match py_int (get payload "age") with
    | Ok n => if (n =? 0)%Z then age_loop (Mongo.find (eng_col st))
              else incr (age_label n) (age_loop (Mongo.find (eng_col st)))
    | Raise _ => age_loop (Mongo.find (eng_col st))
    end.
Proof.
  apply log_engagement_inserts in Hrun as (_ & payload & d & Hp & Hd & ->).
  exists payload. split; [exact Hp | ].
  cbn [eng_col with_engagements]. rewrite find_snoc, age_loop_snoc. cbn [Mongo.body].
  apply engagement_doc_fields in Hd
    as (age & -> & [[Hfalsy ->] | (Htruthy & n & Hn & ->)]).
  - change (counted_age _) with (@None Z).
    destruct (py_int (get payload "age")) as [n | ] eqn:Hn; [ | reflexivity].
    by rewrite (falsy_int _ _ Hfalsy Hn).
  - rewrite Hn.
    change (counted_age _) with (if negb (n =? 0)%Z then Some n else None).
    by destruct (n =? 0)%Z.
Qed.

Lemma logged_age_is_counted_witness :
  age_loop (Mongo.find (eng_col
    (log_engagement (post_engagement (VDict [("age", VStr "30")])) empty_state).1))
  !! "26-40" = Some 1.
Proof.
  set (st' := (log_engagement (post_engagement (VDict [("age", VStr "30")]))
                               empty_state).1).
  destruct (logged_age_is_counted (post_engagement (VDict [("age", VStr "30")]))
              empty_state st' (status "ok") eq_refl) as (payload & Hp & Heq).
  injection Hp as <-. rewrite Heq. reflexivity.
Defined.

(** ** The export as a whole *)

Section ExportWhole.
Variable py_repr : value → string.

Lemma join_items l : ∀ acc,
  if forallb is_text l
  then ∃ strs, foldM (λ acc x, match x with
                               | VStr s => Ok (acc ++ [s])
                               | _ => Raise TypeError
                               end) acc l = Ok strs
  else foldM (λ acc x, match x with
                       | VStr s => Ok (acc ++ [s])
                       | _ => Raise TypeError
                       end) acc l = Raise TypeError.
Proof.
  induction l as [ | x l IH ]; intros acc; simpl; [by eexists | ].
  destruct x; simpl; try reflexivity. apply IH.
Qed.

Lemma py_join_joinable v :
  if joinable v then ∃ s, py_join "," (py_or v (VList [])) = Ok s
  else py_join "," (py_or v (VList [])) = Raise TypeError.
Proof.
  unfold py_or, py_join.
  destruct v as [ | [ | ] | n | [ | c s] | t | l | d ]; simpl;
    try reflexivity; try (by eexists).
  - destruct (n =? 0)%Z; simpl; [by eexists | reflexivity].
  - pose proof (join_items (map (λ c, VStr (String c EmptyString))
                                (list_ascii_of_string s)) [String c EmptyString]) as H.
    assert (forallb is_text (map (λ c, VStr (String c EmptyString))
                                 (list_ascii_of_string s)) = true) as Ht.
    { generalize (list_ascii_of_string s). intros cs.
      induction cs as [ | a cs IHcs ]; [reflexivity | exact IHcs]. }
    rewrite Ht in H. destruct H as [strs ->]. by eexists.
  - destruct l as [ | x l ]; simpl; [by eexists | ].
    pose proof (join_items (x :: l) []) as H. simpl in H.
    destruct (is_text x && forallb is_text l).
    + destruct H as [strs ->]. by eexists.
    + by rewrite H.
  - destruct d as [ | kv d ]; simpl; [by eexists | ].
    pose proof (join_items (map (λ kv, VStr kv.1) d) [kv.1]) as H.
    assert (forallb is_text (map (λ kv : string * value, VStr kv.1) d) = true) as Ht.
    { clear H. induction d as [ | a d IHd ]; [reflexivity | exact IHd]. }
    rewrite Ht in H. destruct H as [strs ->]. by eexists.
Qed.

Lemma export_cells_exportable e :
  if exportable e then ∃ cells, export_cells py_repr e = Ok cells
  else ∃ ex, export_cells py_repr e = Raise ex ∧ (ex = TypeError ∨ ex = AttributeError).
Proof.
  unfold exportable, export_cells.
  pose proof (py_join_joinable (get e "desires")) as Hj.
  destruct (joinable (get e "desires")); simpl.
  - destruct Hj as [s ->]. simpl.
    destruct (get e "timestamp") as [ | [ | ] | n | [ | c s'] | t | [ | x l] | [ | x d] ];
      simpl; try (by eexists); try (eexists; split; [reflexivity | by right]).
    destruct (n =? 0)%Z; simpl; [by eexists | eexists; split; [reflexivity | by right] ].
  - rewrite Hj. simpl. eexists. split; [reflexivity | by left].
Qed.

Lemma export_fold_exportable es : ∀ si,
  if forallb exportable es
  then ∃ text, foldM (export_step py_repr) si es = Ok text
  else ∃ ex, foldM (export_step py_repr) si es = Raise ex ∧
             (ex = TypeError ∨ ex = AttributeError).
Proof.
  induction es as [ | e es IH ]; intros si; [by eexists | ].
  cbn [foldM forallb].
  assert (export_step py_repr si e =
          (cells ← export_cells py_repr e; mret (si +:+ writerow cells))) as ->
    by reflexivity.
  pose proof (export_cells_exportable e) as He.
  destruct (exportable e); cbn [andb].
  - destruct He as [cells ->]. cbn [mbind outcome_bind mret outcome_ret]. apply IH.
  - destruct He as (ex & -> & Hex). by exists ex.
Qed.

(** C7. The specification has the export write a CSV file with one row per
    engagement. The code does not deliver it: the rows are written into a
    text buffer, and [send_file] refuses a text stream. Every export request
    of an admin fails and leaves the state as it was, whatever the stored
    engagements are: with the [ValueError] of [send_file] when the loop has
    written every row, and inside the loop with [TypeError] or
    [AttributeError] as soon as one record has desires that cannot be joined
    or a timestamp that is neither a datetime nor falsy. *)
Theorem export_csv_never_delivers (req : request) (st : state)
    (Hadmin : truthy (get (session st) "admin_logged_in") = true) :
  ∃ ex, export_csv py_repr req st = (st, Crash ex) ∧
        if forallb exportable (Mongo.find (eng_col st))
        then (∃ text, export_text py_repr (Mongo.find (eng_col st)) = Ok text) ∧
             ex = ValueError
        else export_text py_repr (Mongo.find (eng_col st)) = Raise ex ∧
             (ex = TypeError ∨ ex = AttributeError).
Proof.
  unfold export_csv. rewrite admin_required_pass by exact Hadmin.
  unfold export_text.
  pose proof (export_fold_exportable (Mongo.find (eng_col st)) (writerow export_header))
    as Hfold.
  destruct (forallb exportable (Mongo.find (eng_col st))).
  - destruct Hfold as [text ->]. exists ValueError.
    split; [reflexivity | split; [by exists text | reflexivity] ].
  - destruct Hfold as (ex & -> & Hex). by exists ex.
Qed.
End ExportWhole.

Lemma export_csv_never_delivers_witness :
  export_csv (λ _, EmptyString) (get_request EmptyString) (admin_with [visit; bare_visit])
    = (admin_with [visit; bare_visit], Crash ValueError) ∧
  export_csv (λ _, EmptyString) (get_request EmptyString) (admin_with [visit; numeric_desire])
    = (admin_with [visit; numeric_desire], Crash TypeError).
Proof.
  split.
  - destruct (export_csv_never_delivers (λ _, EmptyString) (get_request EmptyString)
                (admin_with [visit; bare_visit]) eq_refl) as (ex & Hrun & He).
    assert (forallb exportable (Mongo.find (eng_col (admin_with [visit; bare_visit])))
            = true) as Hall by reflexivity.
    rewrite Hall in He. destruct He as [_ ->]. exact Hrun.
  - destruct (export_csv_never_delivers (λ _, EmptyString) (get_request EmptyString)
                (admin_with [visit; numeric_desire]) eq_refl) as (ex & Hrun & He).
    assert (forallb exportable (Mongo.find (eng_col (admin_with [visit; numeric_desire])))
            = false) as Hall by reflexivity.
    rewrite Hall in He. destruct He as [Hraise _].
    vm_compute in Hraise. injection Hraise as <-. exact Hrun.
Defined.

(** ** The listing of the engagements *)

Section ListingItems.
Variable sort_desc : string → Mongo.collection → Mongo.collection.
Variable oid_str : N → string.

Lemma listing_step_item items s :
  is_Some (timestamp_text (Mongo.body s)) →
  ∃ item, listing_step oid_str items s = Ok (items ++ [item]) ∧ lists oid_str s item.
Proof.
  intros [ts Hts]. unfold listing_step, timestamp_text in *.
  change (get (("_id", VStr (oid_str (Mongo.oid s))) :: Mongo.body s) "timestamp")
    with (get (Mongo.body s) "timestamp").
  assert (∀ k, k ≠ "_id" →
            lookup_field (("_id", VStr (oid_str (Mongo.oid s))) :: Mongo.body s) k =
            lookup_field (Mongo.body s) k) as Hother.
  { intros k Hid. cbn [lookup_field]. apply not_eq_sym, String.eqb_neq in Hid.
    by rewrite Hid. }
  destruct (truthy (get (Mongo.body s) "timestamp")) eqn:Htruthy.
  - destruct (get (Mongo.body s) "timestamp") as [ | b | n | x | t | l | d ] eqn:Hg;
      try (simpl in Hts, Htruthy; rewrite ?Htruthy in Hts; discriminate).
    + apply get_lookup in Hg; [ | discriminate].
      eexists. split; [reflexivity | ]. eexists. split; [reflexivity | ].
      unfold setitem. cbn [Mongo.set_field]. cbn [String.eqb Ascii.eqb Bool.eqb].
      split; [reflexivity | split ].
      * cbn [lookup_field]. cbn [String.eqb Ascii.eqb Bool.eqb].
        by rewrite lookup_set_field, String.eqb_refl, Hg.
      * intros k Hid Hk. cbn [lookup_field].
        apply not_eq_sym, String.eqb_neq in Hid. rewrite Hid.
        rewrite lookup_set_field.
        apply not_eq_sym, String.eqb_neq in Hk. by rewrite Hk.
  - eexists. split; [reflexivity | ]. eexists. split; [reflexivity | ].
    split; [reflexivity | split; [ | by intros k Hid _; apply Hother] ].
    rewrite Hother by discriminate.
    unfold get in Htruthy.
    destruct (lookup_field (Mongo.body s) "timestamp") as [ [ | | | | t | | ] | ];
      try reflexivity. discriminate.
Qed.

Lemma listing_fold l : ∀ items,
  Forall (λ s, is_Some (timestamp_text (Mongo.body s))) l →
  ∃ more, foldM (listing_step oid_str) items l = Ok (items ++ more) ∧
          Forall2 (lists oid_str) l more.
Proof.
  induction l as [ | s l IH ]; intros items Hl.
  - exists []. by rewrite app_nil_r.
  - apply Forall_cons in Hl as [Hs Hl].
    destruct (listing_step_item items s Hs) as (item & Hstep & Hitem).
    destruct (IH (items ++ [item]) Hl) as (more & Hrun & Hmore).
    exists (item :: more). split; [ | by constructor].
    cbn [foldM]. rewrite Hstep. cbn [mbind outcome_bind]. rewrite Hrun.
    by rewrite <- app_assoc.
Qed.

(** X19. When the sort returns the stored engagements in some order and
    every timestamp is a datetime or falsy, the listing answers with at most
    500 items, one for each of the first records of the sorted collection:
    the record with its [_id] as text, its timestamp as ISO 8601 text and
    every other field unchanged. *)
Theorem listing_items (req : request) (st : state)
    (Hsort : ∀ c, sort_desc "timestamp" c ≡ₚ c)
    (Hadmin : truthy (get (session st) "admin_logged_in") = true)
    (Hts : Forall (λ s, is_Some (timestamp_text (Mongo.body s))) (eng_col st)) :
  ∃ items,
    admin_engagements sort_desc oid_str req st = (st, Resp (Json (VList items) 200)) ∧
    length items = min 500 (length (eng_col st)) ∧
    Forall2 (lists oid_str) (take 500 (sort_desc "timestamp" (eng_col st))) items.
Proof.
  unfold admin_engagements. rewrite admin_required_pass by exact Hadmin.
  destruct (listing_fold (take 500 (sort_desc "timestamp" (eng_col st))) [])
    as (items & Hrun & Hitems).
  { apply Forall_take. by rewrite (Hsort (eng_col st)). }
  exists items. rewrite Hrun. split; [reflexivity | split; [ | exact Hitems] ].
  rewrite <- (Forall2_length _ _ _ Hitems), length_take, (Hsort (eng_col st)). lia.
Qed.
End ListingItems.

Lemma listing_items_witness :
  ∃ items,
    admin_engagements (λ _ c, c) string_of_N delete_s1 one_visit
      = (one_visit, Resp (Json (VList items) 200)) ∧
    length items = 1 ∧
    Forall2 (lists string_of_N) [stored_visit] items.
Proof.
  apply (listing_items (λ _ c, c) string_of_N delete_s1 one_visit).
  - reflexivity.
  - reflexivity.
  - repeat constructor. by eexists.
Defined.

(** ** The premium leads in the report *)

Lemma compute_insights_leads es r :
  compute_insights es = Ok r →
  suggestions (aggregate es) = Ok (premium_suggestions r).
Proof.
  unfold compute_insights.
  destruct (jobs_loop es) as [h | ]; cbn [mbind outcome_bind]; [ | discriminate].
  destruct (counts_loop es) as [[[s q] d] | ]; cbn [mbind outcome_bind]; [ | discriminate].
  destruct (suggestions (aggregate es)) as [leads | ];
    cbn [mbind outcome_bind mret outcome_ret]; [ | discriminate].
  by intros [= <-].
Qed.

(** C2. The specification has [computeInsights] emit a lead for exactly the
    pairs (user, question) with count >= 2 and a non-null user. The code does
    not do so as soon as one stored engagement has a job that is neither a
    string nor falsy: for a pair that meets the condition the pipeline gives
    its lead, but the job loop has raised before ([.strip()] on the job, with
    no [try]), the insights raise [AttributeError] and the request is
    answered with a failure: no lead is emitted. *)
Theorem premium_leads_lost_on_numeric_job (req : request) (st : state) (u q : value)
    (Hadmin : truthy (get (session st) "admin_logged_in") = true)
    (Hlog : Forall (λ e, logged_shape e = true) (Mongo.find (eng_col st)))
    (Hjob : Exists (λ e, job_is_text e = false) (Mongo.find (eng_col st)))
    (Huser : u ≠ VNone)
    (Hcount : 2 ≤ pair_count u q (Mongo.find (eng_col st))) :
  (∃ leads, suggestions (aggregate (Mongo.find (eng_col st))) = Ok leads ∧
            lead u q (pair_count u q (Mongo.find (eng_col st))) ∈ leads) ∧
  compute_insights (Mongo.find (eng_col st)) = Raise AttributeError ∧
  admin_insights req st = (st, Crash AttributeError).
Proof.
  split.
  - destruct (pipeline_leads_logged _ Hlog) as (leads & Hl & _ & _ & Hin).
    exists leads. split; [exact Hl | ]. by apply Hin.
  - assert (compute_insights (Mongo.find (eng_col st)) = Raise AttributeError) as Hc.
    { unfold compute_insights, jobs_loop. rewrite jobs_fold_not_text; [reflexivity | ].
      apply Exists_fmap. eapply Exists_impl; [exact Hjob | ].
      intros e He. simpl. by rewrite job_is_text_project. }
    split; [exact Hc | ].
    unfold admin_insights. rewrite admin_required_pass by exact Hadmin. by rewrite Hc.
Qed.

Lemma premium_leads_lost_on_numeric_job_witness :
  (∃ leads, suggestions (aggregate (Mongo.find (eng_col asked_twice))) = Ok leads ∧
            lead (VStr "A") (VStr "Q1") 2 ∈ leads) ∧
  admin_insights (get_request EmptyString) asked_twice
    = (asked_twice, Crash AttributeError).
Proof.
  destruct (premium_leads_lost_on_numeric_job (get_request EmptyString) asked_twice
              (VStr "A") (VStr "Q1")) as (Hlead & _ & Hrun).
  - reflexivity.
  - vm_compute. repeat constructor.
  - vm_compute. apply Exists_cons_hd. reflexivity.
  - discriminate.
  - vm_compute. lia.
  - split; [exact Hlead | exact Hrun].
Defined.

(** X20. On engagements that follow the data model (job, service and
    question strings or falsy, desires a sequence of strings or absent) and
    are stored as [log_engagement] stores them, the insights complete and
    the report holds one lead {user, question, count} for exactly the pairs
    (user_id, question_clicked) with count >= 2 and a non-null user_id, each
    once, with the number of engagements of the pair as its count. *)
Theorem insights_report_leads (es : list doc)
    (Htyped : Forall (λ e, typed_engagement e = true) es)
    (Hlog : Forall (λ e, logged_shape e = true) es) :
  ∃ r, compute_insights es = Ok r ∧ NoDup (premium_suggestions r) ∧
       (∀ l, l ∈ premium_suggestions r → ∃ u q n, l = lead u q n) ∧
       ∀ u q n, lead u q n ∈ premium_suggestions r ↔
                u ≠ VNone ∧ n = pair_count u q es ∧ 2 ≤ n.
Proof.
  destruct (insights_complete_on_typed es Htyped) as (r & Hr & _).
  destruct (pipeline_leads_logged es Hlog) as (leads & Hl & Hrest).
  exists r. split; [exact Hr | ].
  pose proof (compute_insights_leads es r Hr) as Hp.
  rewrite Hl in Hp. injection Hp as ->. exact Hrest.
Qed.

Lemma insights_report_leads_witness :
  ∃ r, compute_insights example_engagements = Ok r ∧
       lead (VStr "A") (VStr "Q1") 2 ∈ premium_suggestions r ∧
       lead VNone (VStr "Q1") 2 ∉ premium_suggestions r.
Proof.
  destruct (insights_report_leads example_engagements) as (r & Hr & _ & _ & Hin).
  - repeat constructor.
  - repeat constructor.
  - exists r. split; [exact Hr | split ].
    + apply Hin. split; [discriminate | split; [reflexivity | ] ].
      apply (proj1 (Nat.leb_le 2 _)). reflexivity.
    + intros [Hu _]%Hin. by apply Hu.
Defined.
